(** * google-home-mcp: the credential manager and the tool dispatcher

    A shallow embedding of [src/auth.ts] (class [GoogleAuth]) and of the
    tool-call handler of [src/index.ts] (class [GoogleHomeMCP]; the handlers
    of [src/server.ts] and [src/function.ts] are textually the same), with
    the properties of the specification stated and proved over it. *)

From Stdlib Require Import Ascii String DecimalString ZArith Lia.
From stdpp Require Import base option list strings gmap fin_maps.

Open Scope string_scope.

#[local] Set Warnings "-register-all".

(** ** Text helpers *)

(** The double quote and the line feed, by character code. *)
Definition dquote : string := String "034"%char EmptyString.
Definition newline : string := String "010"%char EmptyString.

Definition quoted (s : string) : string := dquote +:+ s +:+ dquote.

(** [Array.prototype.join] on an array of strings. *)
Fixpoint join (sep : string) (l : list string) : string :=
  match l with
  | [] => ""
  | [x] => x
  | x :: rest => x +:+ sep +:+ join sep rest
  end.

(** Decimal rendering of an array index. *)
Definition string_of_nat (n : nat) : string :=
  NilEmpty.string_of_uint (Nat.to_uint n).

(** JavaScript truthiness of a string: only the empty string is falsy. *)
Definition truthy_string (s : string) : bool :=
  match s with
  | EmptyString => false
  | String _ _ => true
  end.

(** Truthiness of [string | null | undefined]. *)
Definition truthy (o : option string) : bool :=
  match o with
  | Some s => truthy_string s
  | None => false
  end.

(** [a || b] on an optional string with a string default. *)
Definition or_default (o : option string) (d : string) : string :=
  if truthy o then default d o else d.

(** ** JSON values: the [arguments] of a tool call *)

Inductive JValue : Type :=
| JNull
| JBool (b : bool)
| JNum (n : Z)
| JStr (s : string)
| JArr (items : list JValue)
| JObj (fields : gmap string JValue).

(** [request.params.arguments]: a string-keyed record, or [undefined]. *)
Abbreviation Args := (gmap string JValue).

(** ** zod: the validation library, as far as the handlers use it

    Only [z.string()], [z.array(...)], [.optional()] and [z.object({...})]
    occur, so every issue is an [invalid_type] issue. *)

Inductive ZodParsedType :=
| PTstring | PTnumber | PTboolean | PTnull | PTarray | PTobject | PTundefined.

Definition parsedType_name (t : ZodParsedType) : string :=
  match t with
  | PTstring => "string"
  | PTnumber => "number"
  | PTboolean => "boolean"
  | PTnull => "null"
  | PTarray => "array"
  | PTobject => "object"
  | PTundefined => "undefined"
  end.

(** [getParsedType]; [None] is [undefined] (an absent key). *)
Definition getParsedType (v : option JValue) : ZodParsedType :=
  match v with
  | None => PTundefined
  | Some JNull => PTnull
  | Some (JBool _) => PTboolean
  | Some (JNum _) => PTnumber
  | Some (JStr _) => PTstring
  | Some (JArr _) => PTarray
  | Some (JObj _) => PTobject
  end.

Inductive PathElem :=
| PKey (k : string)
| PIndex (i : nat).

Record ZodIssue := mkIssue {
  zi_expected : ZodParsedType;
  zi_received : ZodParsedType;
  zi_path : list PathElem;
}.

(** The default error map for [invalid_type]. *)
Definition issue_message (i : ZodIssue) : string :=
  match zi_received i with
  | PTundefined => "Required"
  | r => "Expected " +:+ parsedType_name (zi_expected i) +:+
         ", received " +:+ parsedType_name r
  end.

Definition invalid_type (expected : ZodParsedType) (v : option JValue)
    (path : list PathElem) : ZodIssue :=
  mkIssue expected (getParsedType v) path.

(** The outcome of a parse: the typed value, or the issues found. *)
Inductive ZRes (A : Type) :=
| ZOk (a : A)
| ZFail (issues : list ZodIssue).
Arguments ZOk {A} a.
Arguments ZFail {A} issues.

Definition zissues {A} (r : ZRes A) : list ZodIssue :=
  match r with
  | ZOk _ => []
  | ZFail i => i
  end.

(** An object or an array parses all its members and reports the issues of
    all of them, in order. *)
Definition zboth {A B} (ra : ZRes A) (rb : ZRes B) : ZRes (A * B) :=
  match ra, rb with
  | ZOk a, ZOk b => ZOk (a, b)
  | _, _ => ZFail (zissues ra ++ zissues rb)
  end.

(** Schemas, indexed by the type of the value they produce. *)
Inductive ZType : Type -> Type :=
| ZString : ZType string
| ZArray {A} (elt : ZType A) : ZType (list A)
| ZOptional {A} (inner : ZType A) : ZType (option A).

Inductive ZShape : Type -> Type :=
| ZEnd : ZShape unit
| ZField {A B} (key : string) (t : ZType A) (rest : ZShape B) : ZShape (A * B).

Section ParseItems.
Context {A : Type} (parse_elt : list PathElem -> option JValue -> ZRes A).

Fixpoint parse_items (path : list PathElem) (i : nat) (items : list JValue)
    : ZRes (list A) :=
  match items with
  | [] => ZOk []
  | v :: rest =>
      match zboth (parse_elt (path ++ [PIndex i]) (Some v))
                  (parse_items path (S i) rest) with
      | ZOk (a, l) => ZOk (a :: l)
      | ZFail iss => ZFail iss
      end
  end.
End ParseItems.

Fixpoint zparse {A} (t : ZType A) (path : list PathElem) (v : option JValue)
    : ZRes A :=
  match t in ZType T return ZRes T with
  | ZString =>
      match v with
      | Some (JStr s) => ZOk s
      | _ => ZFail [invalid_type PTstring v path]
      end
  | ZArray elt =>
      match v with
      | Some (JArr items) => parse_items (zparse elt) path 0 items
      | _ => ZFail [invalid_type PTarray v path]
      end
  | ZOptional inner =>
      match v with
      | None => ZOk None
      | Some _ =>
          match zparse inner path v with
          | ZOk a => ZOk (Some a)
          | ZFail iss => ZFail iss
          end
      end
  end.

Fixpoint zparse_fields {A} (sh : ZShape A) (o : Args) : ZRes A :=
  match sh in ZShape T return ZRes T with
  | ZEnd => ZOk tt
  | ZField key t rest =>
      zboth (zparse t [PKey key] (o !! key)) (zparse_fields rest o)
  end.

(** [z.object(shape).parse(args)]: unknown keys are stripped. *)
Definition zobject_parse {A} (sh : ZShape A) (args : option Args) : ZRes A :=
  match args with
  | None => ZFail [mkIssue PTobject PTundefined []]
  | Some o => zparse_fields sh o
  end.

Definition is_optional {A} (t : ZType A) : bool :=
  match t with
  | ZOptional _ => true
  | _ => false
  end.

(** The keys a schema requires. *)
Fixpoint required_keys {A} (sh : ZShape A) : list string :=
  match sh with
  | ZEnd => []
  | ZField key t rest =>
      if is_optional t then required_keys rest else key :: required_keys rest
  end.

(** [ZodError.message]: [JSON.stringify(issues, null, 2)]. Keys and
    messages are built from schema keys and type names, none of which needs
    escaping. *)
Definition render_path_elem (p : PathElem) : string :=
  match p with
  | PKey k => quoted k
  | PIndex i => string_of_nat i
  end.

Definition render_path (path : list PathElem) : string :=
  match path with
  | [] => "[]"
  | _ => "[" +:+ newline +:+
         join ("," +:+ newline) (map (fun p => "      " +:+ render_path_elem p) path)
         +:+ newline +:+ "    ]"
  end.

Definition render_issue (i : ZodIssue) : string :=
  "  {" +:+ newline +:+
  "    " +:+ quoted "code" +:+ ": " +:+ quoted "invalid_type" +:+ "," +:+ newline +:+
  "    " +:+ quoted "expected" +:+ ": " +:+ quoted (parsedType_name (zi_expected i)) +:+ "," +:+ newline +:+
  "    " +:+ quoted "received" +:+ ": " +:+ quoted (parsedType_name (zi_received i)) +:+ "," +:+ newline +:+
  "    " +:+ quoted "path" +:+ ": " +:+ render_path (zi_path i) +:+ "," +:+ newline +:+
  "    " +:+ quoted "message" +:+ ": " +:+ quoted (issue_message i) +:+ newline +:+
  "  }".

Definition zodError_message (issues : list ZodIssue) : string :=
  match issues with
  | [] => "[]"
  | _ => "[" +:+ newline +:+
         join ("," +:+ newline) (map render_issue issues) +:+ newline +:+ "]"
  end.

(** ** Exceptions, results and the state monad of the embedding *)

(** What a [throw] carries. Everything thrown here is an [Error] instance
    with a [message]; a [ZodError] keeps its issues and renders its message
    from them. *)
Inductive Exn :=
| Error (message : string)
| ZodError (issues : list ZodIssue).

Definition exn_message (e : Exn) : string :=
  match e with
  | Error m => m
  | ZodError issues => zodError_message issues
  end.

Inductive Res (A : Type) :=
| Ok (a : A)
| Throw (e : Exn).
Arguments Ok {A} a.
Arguments Throw {A} e.

(** A computation over a mutable state [S] that returns or throws. A throw
    keeps the state reached so far. *)
Definition M (S A : Type) : Type := S -> Res A * S.

Definition ret {S A} (a : A) : M S A := fun s => (Ok a, s).
Definition throw {S A} (e : Exn) : M S A := fun s => (Throw e, s).

Definition bind {S A B} (c : M S A) (k : A -> M S B) : M S B :=
  fun s =>
    match c s with
    | (Ok a, s') => k a s'
    | (Throw e, s') => (Throw e, s')
    end.

(** [try { c } catch (error) { h error }] *)
Definition try_catch {S A} (c : M S A) (h : Exn -> M S A) : M S A :=
  fun s =>
    match c s with
    | (Ok a, s') => (Ok a, s')
    | (Throw e, s') => h e s'
    end.

Definition get {S} : M S S := fun s => (Ok s, s).
Definition modify {S} (f : S -> S) : M S unit := fun s => (Ok tt, f s).

(** Run a computation on a component of the state. *)
Definition zoom {S T A} (proj : S -> T) (upd : T -> S -> S) (c : M T A)
    : M S A :=
  fun s => let '(r, t') := c (proj s) in (r, upd t' s).

Declare Scope js_scope.
Delimit Scope js_scope with js.
Notation "x <- c ;; k" := (bind c (fun x => k))
  (at level 100, c at next level, right associativity) : js_scope.
Notation "c ;;; k" := (bind c (fun _ => k))
  (at level 100, right associativity) : js_scope.

Definition of_zod {S A} (r : ZRes A) : M S A :=
  match r with
  | ZOk a => ret a
  | ZFail issues => throw (ZodError issues)
  end.

(** ** The outside world: environment, disk, token endpoint *)

(** [Credentials] of [auth.ts]: the OAuth2 client identity of the
    application. *)
Record Credentials := mkCredentials {
  client_id : string;
  client_secret : string;
  redirect_uris : list string;
}.

(** The credentials document: an [installed] or a [web] entry. *)
Record CredentialsFile := mkCredentialsFile {
  installed : option Credentials;
  web : option Credentials;
}.

(** The TokenSet: the [tokens] of google-auth-library, every field
    [string | null | undefined] ([expiry_date] a number). *)
Record TokenSet := mkTokenSet {
  access_token : option string;
  refresh_token : option string;
  scope : option string;
  token_type : option string;
  id_token : option string;
  expiry_date : option Z;
}.

Definition no_tokens : TokenSet := mkTokenSet None None None None None None.

(** Text is kept up to [JSON.parse]: a text is either one that [JSON.parse]
    rejects, or the JSON text of a value: a credentials document, a
    TokenSet, the value [null], or any other value (a number, a string, a
    boolean, an array, an object with none of the properties read). *)
Inductive Json :=
| JCredentials (c : CredentialsFile)
| JTokens (t : TokenSet)
| JsonNull
| JsonOther.

(** A TokenSet is read as the JSON value it is. *)
Coercion JTokens : TokenSet >-> Json.

Inductive Doc :=
| RawText (s : string)
| JsonText (j : Json).

(** Truthiness of a text: a JSON text is never empty. *)
Definition truthy_doc (d : option Doc) : bool :=
  match d with
  | None => false
  | Some (RawText s) => truthy_string s
  | Some (JsonText _) => true
  end.

(** [credentials.installed || credentials.web] on a parsed value; a
    TokenSet and the other values have neither property, and on [null]
    the read itself throws. [None] stands for both: either way the line
    that destructures the result throws. *)
Definition installed_or_web (j : Json) : option Credentials :=
  match j with
  | JCredentials c =>
      match installed c with
      | Some i => Some i
      | None => web c
      end
  | JTokens _ | JsonNull | JsonOther => None
  end.

(** A JSON value stored as the [credentials] of the client; [None] is
    [null]. A credentials document and the other values have none of the
    token properties. *)
Definition as_tokens (j : Json) : option TokenSet :=
  match j with
  | JTokens t => Some t
  | JsonNull => None
  | JCredentials _ | JsonOther => Some no_tokens
  end.

(** The answer of the provider's token endpoint to a code exchange: the
    JSON value of a successful answer, which the library hands over as it
    came ([tokens = res.data]; from a provider that follows the protocol, a
    TokenSet), or a failure (invalid or expired code, network error) with
    its message. *)
Inductive TokenResponse :=
| Granted (tokens : Json)
| Refused (message : string).

(** How [fs.writeFile] can fail: it opens the file with flag [w], which
    truncates it, and then writes. A failure to open leaves the file as it
    was; a failure while writing leaves a truncated file with what was
    written so far. *)
Inductive WriteFault :=
| FailsAtOpen (message : string)
| FailsAfterTruncate (written : string) (message : string).

Inductive Event :=
| TokenRequest (code : string)
| ReadFile (path : string)
| WriteFile (path : string).

(** [token_endpoint] is the answer the exchange of a code ends with;
    [token_retries] is how many times the library sends the request again
    before it takes that answer (it retries on some failures). *)
Record World := mkWorld {
  env_GOOGLE_CREDENTIALS : option Doc;
  files : gmap string Doc;
  token_endpoint : string -> TokenResponse;
  token_retries : string -> nat;
  write_fault : string -> option WriteFault;
  trace : list Event;
}.

Definition log_event (e : Event) (w : World) : World :=
  mkWorld (env_GOOGLE_CREDENTIALS w) (files w) (token_endpoint w)
          (token_retries w) (write_fault w) (trace w ++ [e]).

(** The requests of one exchange: the first one and the retries. *)
Definition log_requests (code : string) (w : World) : World :=
  mkWorld (env_GOOGLE_CREDENTIALS w) (files w) (token_endpoint w)
          (token_retries w) (write_fault w)
          (trace w ++ repeat (TokenRequest code) (S (token_retries w code))).

Definition set_files (f : gmap string Doc) (w : World) : World :=
  mkWorld (env_GOOGLE_CREDENTIALS w) f (token_endpoint w)
          (token_retries w) (write_fault w) (trace w).

Definition is_token_request (e : Event) : bool :=
  match e with
  | TokenRequest _ => true
  | _ => false
  end.

Definition is_write (e : Event) : bool :=
  match e with
  | WriteFile _ => true
  | _ => false
  end.

(** The outbound calls and the file writes made so far. *)
Definition outbound_calls (w : World) : list Event :=
  List.filter is_token_request (trace w).
Definition file_writes (w : World) : list Event :=
  List.filter is_write (trace w).

(** ** google-auth-library: [OAuth2Client] *)

(** [credentials] is whatever [setCredentials] was last given: a
    TokenSet, or [null] ([None]). *)
Record OAuth2Client := mkOAuth2Client {
  _clientId : string;
  _clientSecret : string;
  redirectUri : option string;
  credentials : option TokenSet;
}.

(** [new OAuth2Client(clientId, clientSecret, redirectUri)]; its
    [credentials] start as the empty object. *)
Definition new_OAuth2Client (id secret : string) (redirect : option string)
    : OAuth2Client :=
  mkOAuth2Client id secret redirect (Some no_tokens).

(** [setCredentials(credentials)]: [this.credentials = credentials],
    whatever the value. *)
Definition setCredentials (tokens : Json) (c : OAuth2Client) : OAuth2Client :=
  mkOAuth2Client (_clientId c) (_clientSecret c) (redirectUri c)
                 (as_tokens tokens).

(** [querystring.escape]: everything but [A-Za-z0-9-_.!~*'()] is
    percent-encoded, byte by byte. *)
Definition is_unreserved (c : ascii) : bool :=
  let n := nat_of_ascii c in
  (Nat.leb 65 n && Nat.leb n 90) || (Nat.leb 97 n && Nat.leb n 122) ||
  (Nat.leb 48 n && Nat.leb n 57) ||
  existsb (Nat.eqb n) [45; 95; 46; 33; 126; 42; 39; 40; 41]%nat.

Definition hex_digit (n : nat) : ascii :=
  if Nat.ltb n 10 then ascii_of_nat (48 + n) else ascii_of_nat (55 + n).

Fixpoint querystring_escape (s : string) : string :=
  match s with
  | EmptyString => EmptyString
  | String c rest =>
      if is_unreserved c then String c (querystring_escape rest)
      else
        let n := nat_of_ascii c in
        String "%"%char
          (String (hex_digit (n / 16))
             (String (hex_digit (n mod 16)) (querystring_escape rest)))
  end.

(** [querystring.stringify]; an [undefined] value is written as the empty
    string. *)
Definition querystring_stringify (opts : list (string * option string))
    : string :=
  join "&" (map (fun kv => querystring_escape (fst kv) +:+ "=" +:+
                           querystring_escape (default "" (snd kv))) opts).

Definition GOOGLE_OAUTH2_AUTH_BASE_URL : string :=
  "https://accounts.google.com/o/oauth2/v2/auth".

(** The options of [generateAuthUrl] after it has filled in its defaults:
    the caller's [access_type] and [scope] (an array is joined with a
    space), then [response_type], [client_id], [redirect_uri]. *)
Definition authUrl_opts (access : string) (scopes : list string)
    (c : OAuth2Client) : list (string * option string) :=
  [ ("access_type", Some access);
    ("scope", Some (join " " scopes));
    ("response_type", Some "code");
    ("client_id", Some (_clientId c));
    ("redirect_uri", redirectUri c) ].

Definition generateAuthUrl (access : string) (scopes : list string)
    (c : OAuth2Client) : string :=
  GOOGLE_OAUTH2_AUTH_BASE_URL +:+ "?" +:+
  querystring_stringify (authUrl_opts access scopes c).

(** ** Effects on the world *)

Section WorldEffects.
Context {O : Type}.
(** The state of a method: the object it belongs to and the world. *)
Let St : Type := (O * World)%type.

Definition on_world (f : World -> World) : M St unit :=
  modify (fun s => (fst s, f (snd s))).

(** [process.env.GOOGLE_CREDENTIALS] *)
Definition getenv_GOOGLE_CREDENTIALS : M St (option Doc) :=
  fun s => (Ok (env_GOOGLE_CREDENTIALS (snd s)), s).

(** [fs.readFile(path, 'utf-8')] *)
Definition readFile (path : string) : M St Doc :=
  (on_world (log_event (ReadFile path)) ;;;
   s <- get ;;
   match files (snd s) !! path with
   | Some d => ret d
   | None => throw (Error ("ENOENT: no such file or directory, open '"
                           +:+ path +:+ "'"))
   end)%js.

(** [fs.writeFile(path, data)] *)
Definition writeFile (path : string) (data : Doc) : M St unit :=
  (on_world (log_event (WriteFile path)) ;;;
   s <- get ;;
   match write_fault (snd s) path with
   | None => on_world (fun w => set_files (<[path := data]> (files w)) w)
   | Some (FailsAtOpen msg) => throw (Error msg)
   | Some (FailsAfterTruncate written msg) =>
       on_world (fun w => set_files (<[path := RawText written]> (files w)) w) ;;;
       throw (Error msg)
   end)%js.

(** [JSON.parse] *)
Definition JSON_parse (d : Doc) : M St Json :=
  match d with
  | JsonText j => ret j
  | RawText _ => throw (Error "Unexpected token in JSON")
  end.

(** [oauth2Client.getToken(code)]: the one outbound exchange, whose
    request the library may send more than once; its [tokens] are the
    answer as it came. *)
Definition getToken (code : string) : M St Json :=
  (on_world (log_requests code) ;;;
   s <- get ;;
   match token_endpoint (snd s) code with
   | Granted tokens => ret tokens
   | Refused msg => throw (Error msg)
   end)%js.
End WorldEffects.

(** [JSON.stringify(tokens, null, 2)] *)
Definition JSON_stringify (tokens : Json) : Doc := JsonText tokens.

(** ** [auth.ts]: class [GoogleAuth] *)

Record GoogleAuth := mkGoogleAuth {
  oauth2Client : option OAuth2Client;
}.

(** The paths set by the constructor, relative to the project root. *)
Definition credentialsPath : string := "credentials.json".
Definition tokenPath : string := "token.json".

(** [new GoogleAuth()] *)
Definition new_GoogleAuth : GoogleAuth := mkGoogleAuth None.

Definition AuthSt : Type := (GoogleAuth * World)%type.

(** The manager holds the one client object; a change of the client, be it
    its construction or a [setCredentials] on it, is a change of this
    field. *)
Definition set_oauth2Client (c : OAuth2Client) : M AuthSt unit :=
  modify (fun s => (mkGoogleAuth (Some c), snd s)).

Definition not_initialized : Exn := Error "OAuth2 client not initialized".

(** [this.oauth2Client], or the throw of the guard every method starts
    with. *)
Definition client_or_throw : M AuthSt OAuth2Client :=
  (s <- get ;;
   match oauth2Client (fst s) with
   | None => throw not_initialized
   | Some c => ret c
   end)%js.

(** The first part of [initialize]: the credentials from the environment
    variable, or else from the file; [None] is the early [return] of the
    inner [catch]. *)
Definition load_credentials : M AuthSt (option Json) :=
  (envCredentials <- getenv_GOOGLE_CREDENTIALS ;;
   if truthy_doc envCredentials then
     match envCredentials with
     | Some d => j <- JSON_parse d ;; ret (Some j)
     | None => ret None
     end
   else
     try_catch
       (credentialsContent <- readFile credentialsPath ;;
        j <- JSON_parse credentialsContent ;;
        ret (Some j))
       (fun _ => ret None))%js.

(** [initialize] (auth.ts, lines 24-61). A throw anywhere in the outer
    [try] (a text that does not parse, a document with neither entry) ends
    in the outer [catch], which only logs; console output is left out. *)
Definition initialize : M AuthSt unit :=
  try_catch
    (loaded <- load_credentials ;;
     match loaded with
     | None => ret tt
     | Some creds =>
         match installed_or_web creds with
         | None => throw (Error "Cannot destructure property 'client_id'")
         | Some c =>
             set_oauth2Client
               (new_OAuth2Client (client_id c) (client_secret c)
                                 (head (redirect_uris c))) ;;;
             try_catch
               (tokenContent <- readFile tokenPath ;;
                token <- JSON_parse tokenContent ;;
                client <- client_or_throw ;;
                set_oauth2Client (setCredentials token client))
               (fun _ => ret tt)
         end
     end)%js
    (fun _ => ret tt).

Definition scopes : list string :=
  [ "https://www.googleapis.com/auth/homegraph";
    "https://www.googleapis.com/auth/assistant-sdk-prototype" ].

(** [getAuthUrl] (auth.ts, lines 63-77) *)
Definition getAuthUrl : M AuthSt string :=
  (client <- client_or_throw ;;
   ret (generateAuthUrl "offline" scopes client))%js.

(** [getTokenFromCode] (auth.ts, lines 79-88): the tokens are put on the
    client, and then written to the token file. *)
Definition getTokenFromCode (code : string) : M AuthSt unit :=
  (client <- client_or_throw ;;
   tokens <- getToken code ;;
   set_oauth2Client (setCredentials tokens client) ;;;
   writeFile tokenPath (JSON_stringify tokens))%js.

(** [getClient] (auth.ts, lines 90-95) *)
Definition getClient : M AuthSt OAuth2Client := client_or_throw.

(** The TypeError of reading [access_token] on [null]. *)
Definition null_credentials : Exn :=
  Error "Cannot read properties of null (reading 'access_token')".

(** [isAuthenticated] (auth.ts, lines 97-99):
    [!!(this.oauth2Client && this.oauth2Client.credentials.access_token)].
    It reads the manager only; with a client whose [credentials] are
    [null] the read of [access_token] throws. *)
Definition isAuthenticated (a : GoogleAuth) : Res bool :=
  match oauth2Client a with
  | Some c =>
      match credentials c with
      | Some t => Ok (truthy (access_token t))
      | None => Throw null_credentials
      end
  | None => Ok false
  end.

(** ** [index.ts]: the schemas and class [GoogleHomeMCP] *)

Definition ExecuteCommandSchema
    : ZShape (string * (option (list string) * unit)) :=
  ZField "command" ZString
    (ZField "devices" (ZOptional (ZArray ZString)) ZEnd).

Definition QueryDevicesSchema : ZShape (option (list string) * unit) :=
  ZField "devices" (ZOptional (ZArray ZString)) ZEnd.

Definition GetDeviceStatesSchema : ZShape (list string * unit) :=
  ZField "deviceIds" (ZArray ZString) ZEnd.

(** [z.object({ code: z.string() })], written in place where it is used. *)
Definition AuthenticateSchema : ZShape (string * unit) :=
  ZField "code" ZString ZEnd.

(** [z.object({})] *)
Definition EmptySchema : ZShape unit := ZEnd.

(** The HomeGraph handle made by [google.homegraph]. Its [auth] option is
    the manager's own client object, which is reached through the manager:
    the handle holds no copy of it. *)
Record Homegraph := mkHomegraph {
  hg_version : string;
}.

Record GoogleHomeMCP := mkGoogleHomeMCP {
  auth : GoogleAuth;
  homegraph : option Homegraph;
}.

Definition McpSt : Type := (GoogleHomeMCP * World)%type.

(** A call of a method of [this.auth]. *)
Definition with_auth {A} (c : M AuthSt A) : M McpSt A :=
  zoom (fun s : McpSt => (auth (fst s), snd s))
       (fun (t : AuthSt) (s : McpSt) =>
          (mkGoogleHomeMCP (fst t) (homegraph (fst s)), snd t))
       c.

Record TextContent := mkTextContent {
  type : string;
  text : string;
}.

Record ToolResult := mkToolResult {
  content : list TextContent;
}.

Definition text_result (t : string) : ToolResult :=
  mkToolResult [mkTextContent "text" t].

Record Tool := mkTool {
  name : string;
  description : string;
  inputSchema : { T : Type & ZShape T };
}.

Definition schema {T} (sh : ZShape T) : { T : Type & ZShape T } :=
  existT T sh.

(** The handler of [ListToolsRequestSchema] (index.ts, lines 48-85). *)
Definition listTools : list Tool :=
  [ mkTool "execute_command" "Execute a command on Google Home devices"
           (schema ExecuteCommandSchema);
    mkTool "query_devices" "Query the state of Google Home devices"
           (schema QueryDevicesSchema);
    mkTool "get_device_states" "Get detailed states of specific devices"
           (schema GetDeviceStatesSchema);
    mkTool "list_devices" "List all available Google Home devices"
           (schema EmptySchema);
    mkTool "get_auth_url" "Get the Google OAuth URL for authentication"
           (schema EmptySchema);
    mkTool "authenticate" "Authenticate with Google using an authorization code"
           (schema AuthenticateSchema) ].

Definition not_authenticated : Exn :=
  Error "Not authenticated. Please authenticate first.".

(** [this.auth.isAuthenticated()], called from the handler. *)
Definition auth_isAuthenticated : M McpSt bool :=
  fun s => (isAuthenticated (auth (fst s)), s).

(** [if (!this.auth.isAuthenticated()) throw new Error(...)] *)
Definition require_authenticated : M McpSt unit :=
  (authenticated <- auth_isAuthenticated ;;
   if negb authenticated then throw not_authenticated
   else ret tt)%js.

(** [this.homegraph = google.homegraph({ version: 'v1', auth: this.auth.getClient() })] *)
Definition make_homegraph : M McpSt unit :=
  (_ <- with_auth getClient ;;
   modify (fun s : McpSt =>
             (mkGoogleHomeMCP (auth (fst s)) (Some (mkHomegraph "v1")), snd s)))%js.

(** [if (!this.homegraph) { this.homegraph = ... }] *)
Definition ensure_homegraph : M McpSt unit :=
  (s <- get ;;
   match homegraph (fst s) with
   | None => make_homegraph
   | Some _ => ret tt
   end)%js.

(** [devices?.join(', ') || 'all devices'] *)
Definition devices_or_all (devices : option (list string)) : string :=
  or_default (option_map (join ", ") devices) "all devices".

(** The [switch (name)] of the handler of [CallToolRequestSchema]
    (index.ts, lines 91-227). *)
Definition callTool_switch (name : string) (args : option Args)
    : M McpSt ToolResult :=
  (if String.eqb name "get_auth_url" then
     authenticated <- auth_isAuthenticated ;;
     if negb authenticated then
       authUrl <- with_auth getAuthUrl ;;
       ret (text_result ("Please visit this URL to authorize the application:"
                         +:+ newline +:+ authUrl))
     else ret (text_result "Already authenticated with Google.")
   else if String.eqb name "authenticate" then
     parsed <- of_zod (zobject_parse AuthenticateSchema args) ;;
     let code := fst parsed in
     with_auth (getTokenFromCode code) ;;;
     make_homegraph ;;;
     ret (text_result "Successfully authenticated with Google!")
   else if String.eqb name "execute_command" then
     require_authenticated ;;;
     parsed <- of_zod (zobject_parse ExecuteCommandSchema args) ;;
     let command := fst parsed in
     let devices := fst (snd parsed) in
     ensure_homegraph ;;;
     ret (text_result ("Command " +:+ quoted command +:+
                       " would be executed on devices: " +:+
                       devices_or_all devices))
   else if String.eqb name "query_devices" then
     require_authenticated ;;;
     parsed <- of_zod (zobject_parse QueryDevicesSchema args) ;;
     let devices := fst parsed in
     ensure_homegraph ;;;
     ret (text_result ("Querying devices: " +:+ devices_or_all devices))
   else if String.eqb name "get_device_states" then
     require_authenticated ;;;
     parsed <- of_zod (zobject_parse GetDeviceStatesSchema args) ;;
     let deviceIds := fst parsed in
     ensure_homegraph ;;;
     ret (text_result ("Getting states for devices: " +:+ join ", " deviceIds))
   else if String.eqb name "list_devices" then
     require_authenticated ;;;
     ensure_homegraph ;;;
     ret (text_result "Device listing would be implemented here")
   else throw (Error ("Unknown tool: " +:+ name)))%js.

(** The handler of [CallToolRequestSchema] (index.ts, lines 87-239): the
    switch inside [try { ... } catch (error) { ... }]; the [catch] returns
    the message of whatever was thrown as a text result. *)
Definition callTool (name : string) (args : option Args)
    : M McpSt ToolResult :=
  try_catch (callTool_switch name args)
            (fun error => ret (text_result ("Error: " +:+ exn_message error))).

(** [new GoogleHomeMCP()] *)
Definition new_GoogleHomeMCP : GoogleHomeMCP :=
  mkGoogleHomeMCP new_GoogleAuth None.

(** ** Sample worlds *)

Definition sample_credentials : Credentials :=
  mkCredentials "my-client.apps.googleusercontent.com" "s3cret"
                ["http://localhost:3000/oauth2callback"].

Definition sample_tokens : TokenSet :=
  mkTokenSet (Some "ya29.token") (Some "1//refresh") None (Some "Bearer")
             None (Some 1700000000000%Z).

(** No environment variable, an empty disk, an endpoint that refuses every
    code, a disk that takes every write. *)
Definition empty_world : World :=
  mkWorld None ∅ (fun _ => Refused "invalid_grant") (fun _ => 0) (fun _ => None) [].

(** A deployment with [credentials.json] in place and an endpoint that
    grants [sample_tokens] for the code [valid-code]. *)
Definition sample_world : World :=
  mkWorld None
          {[ credentialsPath :=
               JsonText (JCredentials
                           (mkCredentialsFile (Some sample_credentials) None)) ]}
          (fun code => if String.eqb code "valid-code"
                       then Granted sample_tokens
                       else Refused "invalid_grant")
          (fun _ => 0) (fun _ => None) [].

Definition sample_client : OAuth2Client :=
  new_OAuth2Client (client_id sample_credentials)
                   (client_secret sample_credentials)
                   (head (redirect_uris sample_credentials)).

(** ** [function.ts]: the HTTP function and [handleRequest]

    [handleRequest] is written over the two calls into the MCP SDK,
    [this.server.listTools()] and [this.server.callTool(params)], so that
    what holds of it for any behaviour of the two can be said; the calls
    as the SDK has them follow it. *)

(** The body of a request, as [handleRequest] reads it: its [method] and
    its [params]. *)
Record RpcRequest (P : Type) := mkRpcRequest {
  rpc_method : option string;
  rpc_params : P;
}.
Arguments mkRpcRequest {P} rpc_method rpc_params.
Arguments rpc_method {P} r.
Arguments rpc_params {P} r.

(** A template literal's rendering of a string or [undefined]. *)
Definition template_string (o : option string) : string :=
  default "undefined" o.

Section HandleRequest.
Context {S P R : Type}.
Variable server_listTools : M S R.
Variable server_callTool : P -> M S R.

(** [handleRequest] (function.ts, lines 256-265); [None] is a request
    without a body, on which reading [method] throws. *)
Definition handleRequest (request : option (RpcRequest P)) : M S R :=
  match request with
  | None => throw (Error "Cannot read properties of undefined (reading 'method')")
  | Some r =>
      match rpc_method r with
      | Some m =>
          if String.eqb m "tools/list" then server_listTools
          else if String.eqb m "tools/call" then server_callTool (rpc_params r)
          else throw (Error ("Unknown method: " +:+ template_string (rpc_method r)))
      | None => throw (Error ("Unknown method: " +:+ template_string (rpc_method r)))
      end
  end.
End HandleRequest.

(** The TypeError of a call whose callee is [undefined]. *)
Definition not_a_function (callee : string) : Exn :=
  Error (callee +:+ " is not a function").

(** [this.server] is a [Server] of the SDK (function.ts, lines 2, 28 and
    45): the class has [setRequestHandler], [connect] and the like, and no
    member [listTools] or [callTool] (those are methods of the SDK's
    [Client]). Both reads give [undefined] and both calls throw. *)
Definition Server_listTools {S R : Type} : M S R :=
  throw (not_a_function "this.server.listTools").

Definition Server_callTool {S P R : Type} (params : P) : M S R :=
  throw (not_a_function "this.server.callTool").

(** [mcpFunction.handleRequest] (function.ts, lines 268 and 300): the
    method on the instance the module creates. *)
Definition mcpFunction_handleRequest {S P R : Type}
    (request : option (RpcRequest P)) : M S R :=
  handleRequest Server_listTools Server_callTool request.

Record HttpRequest (B : Type) := mkHttpRequest {
  req_method : string;
  req_path : string;
  req_authorization : option string;
  req_body : B;
}.
Arguments mkHttpRequest {B} req_method req_path req_authorization req_body.
Arguments req_method {B} h.
Arguments req_path {B} h.
Arguments req_authorization {B} h.
Arguments req_body {B} h.

(** What is sent: a text, a JSON value written in place, or the result of
    the handler. *)
Inductive HttpBody (R : Type) :=
| SendText (s : string)
| SendJson (j : JValue)
| SendResult (r : R).
Arguments SendText {R} s.
Arguments SendJson {R} j.
Arguments SendResult {R} r.

(** The response: its status, the headers the function sets itself, in
    order, and what is sent. *)
Record HttpResponse (R : Type) := mkHttpResponse {
  res_status : nat;
  res_headers : list (string * string);
  res_body : HttpBody R;
}.
Arguments mkHttpResponse {R} res_status res_headers res_body.
Arguments res_status {R} h.
Arguments res_headers {R} h.
Arguments res_body {R} h.

Definition cors_headers : list (string * string) :=
  [ ("Access-Control-Allow-Origin", "*");
    ("Access-Control-Allow-Methods", "GET, POST, OPTIONS");
    ("Access-Control-Allow-Headers", "Content-Type, Authorization") ].

(** [process.env.AUTH_TOKEN || 'your-secret-token'] *)
Definition expected_token (AUTH_TOKEN : option string) : string :=
  or_default AUTH_TOKEN "your-secret-token".

(** [`Bearer ${token}`] *)
Definition bearer (token : string) : string := "Bearer " +:+ token.

(** [authHeader !== `Bearer ${expectedToken}`] *)
Definition header_differs (authHeader : option string) (expected : string) : bool :=
  match authHeader with
  | Some h => negb (String.eqb h expected)
  | None => true
  end.

Definition unauthorized_json : JValue :=
  JObj {[ "error" := JStr "Unauthorized" ]}.

Definition health_json : JValue :=
  JObj {[ "status" := JStr "ok"; "service" := JStr "google-home-mcp" ]}.

Definition error_json (msg : string) : JValue :=
  JObj {[ "error" := JStr msg ]}.

Section HttpFunction.
Context {S B R : Type}.
Variable handle : B -> M S R.

(** The function registered as [googleHomeMCP] (function.ts, lines
    272-308); [AUTH_TOKEN] is [process.env.AUTH_TOKEN]. *)
Definition googleHomeMCP (AUTH_TOKEN : option string) (req : HttpRequest B)
    : M S (HttpResponse R) :=
  if String.eqb (req_method req) "OPTIONS" then
    ret (mkHttpResponse 204 cors_headers (SendText ""))
  else if header_differs (req_authorization req)
                         (bearer (expected_token AUTH_TOKEN)) then
    ret (mkHttpResponse 401 cors_headers (SendJson unauthorized_json))
  else if String.eqb (req_path req) "/health" then
    ret (mkHttpResponse 200 cors_headers (SendJson health_json))
  else
    try_catch
      (result <- handle (req_body req) ;;
       ret (mkHttpResponse 200 cors_headers (SendResult result)))%js
      (fun error =>
         ret (mkHttpResponse 500 cors_headers
                (SendJson (error_json (exn_message error))))).
End HttpFunction.

(** ** [server.ts]: the bearer-token gate and the WebSocket handler *)

Inductive Middleware :=
| Next
| Respond (status : nat) (body : JValue).

(** The middleware of [main] (server.ts, lines 276-284). *)
Definition auth_middleware (AUTH_TOKEN : option string) (path : string)
    (authHeader : option string) : Middleware :=
  if String.eqb path "/health" then Next
  else if negb (truthy authHeader)
          || header_differs authHeader (bearer (expected_token AUTH_TOKEN))
  then Respond 401 unauthorized_json
  else Next.

(** [request.id] on a parsed message: [null] has no properties to read;
    only an object can have an [id]. *)
Definition message_id (request : JValue) : Res (option JValue) :=
  match request with
  | JNull => Throw (Error "Cannot read properties of null (reading 'id')")
  | JObj fields => Ok (fields !! "id")
  | _ => Ok None
  end.

(** The message sent back; [JSON.stringify] leaves out an [undefined]
    [id]. *)
Definition connected_reply (id : option JValue) : JValue :=
  let base : gmap string JValue :=
    {[ "jsonrpc" := JStr "2.0";
       "result" := JObj {[ "message" := JStr "MCP server connected" ]} ]} in
  JObj match id with
       | Some v => <["id" := v]> base
       | None => base
       end.

(** The [message] handler of a connection (server.ts, lines 306-319): the
    messages it sends for a message received; [None] is a text that
    [JSON.parse] rejects. The [catch] only logs. *)
Definition ws_on_message (data : option JValue) : list JValue :=
  match data with
  | None => []
  | Some request =>
      match message_id request with
      | Ok id => [connected_reply id]
      | Throw _ => []
      end
  end.

(** ** [index.ts]: [start] *)

(** [start] (index.ts, lines 242-252), up to the connection of the
    transport: the manager is initialised, a throw would only be logged. *)
Definition start : M McpSt unit :=
  try_catch (with_auth initialize) (fun _ => ret tt).

(** ** The vocabulary of the properties *)

(** The operation names of the catalog. *)
Definition catalog_names : list string := map name listTools.

Definition in_catalog (nm : string) : bool :=
  existsb (String.eqb nm) catalog_names.

(** The operations the handler guards with [isAuthenticated]. *)
Definition auth_required : list string :=
  [ "list_devices"; "execute_command"; "query_devices"; "get_device_states" ].

(** The text of a result that carries the message of a [ZodError]. *)
Definition validation_failure_text (t : string) : Prop :=
  exists issues, issues <> [] /\ t = "Error: " +:+ zodError_message issues.

(** A file that is there and holds JSON text. *)
Definition parses (d : option Doc) : bool :=
  match d with
  | Some (JsonText _) => true
  | _ => false
  end.

(** A manager with its client built and no tokens yet. *)
Definition configured_auth : GoogleAuth := mkGoogleAuth (Some sample_client).

(** [sample_world] with a token file that cannot be opened for writing. *)
Definition unwritable_world : World :=
  mkWorld (env_GOOGLE_CREDENTIALS sample_world) (files sample_world)
          (token_endpoint sample_world) (token_retries sample_world)
          (fun _ => Some (FailsAtOpen "EACCES: permission denied, open 'token.json'"))
          [].

(** The URL the specification describes, for a client id and a redirect
    URI: the provider's authorization endpoint, offline access, the
    home-graph and the assistant-prototype scope. *)
Definition authorization_url (id : string) (redirect : option string) : string :=
  "https://accounts.google.com/o/oauth2/v2/auth" +:+
  "?access_type=offline" +:+
  "&scope=" +:+
  querystring_escape ("https://www.googleapis.com/auth/homegraph" +:+ " " +:+
                      "https://www.googleapis.com/auth/assistant-sdk-prototype") +:+
  "&response_type=code" +:+
  "&client_id=" +:+ querystring_escape id +:+
  "&redirect_uri=" +:+ querystring_escape (default "" redirect).

(** The same client with another expiry date on its TokenSet. *)
Definition with_expiry_date (e : option Z) (c : OAuth2Client) : OAuth2Client :=
  match credentials c with
  | Some t =>
      setCredentials
        (mkTokenSet (access_token t) (refresh_token t) (scope t) (token_type t)
                    (id_token t) e)
        c
  | None => c
  end.



(** A manager whose client has [null] for credentials, as [initialize]
    leaves it when the token file holds the text [null]. *)
Definition null_credentials_auth : GoogleAuth :=
  mkGoogleAuth (Some (setCredentials JsonNull sample_client)).

(** [sample_world] with a token file that holds the text [null]. *)
Definition null_token_world : World :=
  set_files (<[tokenPath := JsonText JsonNull]> (files sample_world)) sample_world.

(** [sample_world] with a provider that is down: every exchange ends in a
    server error, after the library has sent the request three more
    times. *)
Definition unavailable_world : World :=
  mkWorld (env_GOOGLE_CREDENTIALS sample_world) (files sample_world)
          (fun _ => Refused "Service Unavailable") (fun _ => 3)
          (write_fault sample_world) [].

(** The credential a world offers to [initialize]: the environment
    variable when it is set and not empty, the credentials file
    otherwise; none when the text does not parse or has neither an
    [installed] nor a [web] entry. *)
Definition credential_source (w : World) : option Credentials :=
  if truthy_doc (env_GOOGLE_CREDENTIALS w) then
    match env_GOOGLE_CREDENTIALS w with
    | Some (JsonText j) => installed_or_web j
    | _ => None
    end
  else
    match files w !! credentialsPath with
    | Some (JsonText j) => installed_or_web j
    | _ => None
    end.

(** The reads [load_credentials] adds to the trace. *)
Definition after_load (w : World) : World :=
  if truthy_doc (env_GOOGLE_CREDENTIALS w) then w
  else log_event (ReadFile credentialsPath) w.

(** The client [initialize] builds from a credential: its tokens are those
    of the token file when that holds JSON text. *)
Definition initialized_client (cr : Credentials) (w : World) : OAuth2Client :=
  let fresh := new_OAuth2Client (client_id cr) (client_secret cr)
                                (head (redirect_uris cr)) in
  match files w !! tokenPath with
  | Some (JsonText j) => setCredentials j fresh
  | _ => fresh
  end.

(** The manager after [initialize]. *)
Definition initialized (a : GoogleAuth) (w : World) : GoogleAuth :=
  match credential_source w with
  | Some cr => mkGoogleAuth (Some (initialized_client cr w))
  | None => a
  end.

(** The world after [initialize]: only reads are added to the trace. *)
Definition after_initialize (w : World) : World :=
  match credential_source w with
  | Some _ => log_event (ReadFile tokenPath) (after_load w)
  | None => after_load w
  end.

(** The keys the schemas of the handler look at. *)
Definition schema_keys : list string :=
  [ "command"; "devices"; "deviceIds"; "code" ].

(** A request to the HTTP function that carries the expected token. *)
Definition authorized {B} (AUTH_TOKEN : option string) (req : HttpRequest B) : Prop :=
  req_authorization req = Some (bearer (expected_token AUTH_TOKEN)).

(** What [handleRequest] throws on a body, with the SDK as it is. *)
Definition handleRequest_error {P} (body : option (RpcRequest P)) : string :=
  match body with
  | None => "Cannot read properties of undefined (reading 'method')"
  | Some r =>
      if bool_decide (rpc_method r = Some "tools/list")
      then "this.server.listTools is not a function"
      else if bool_decide (rpc_method r = Some "tools/call")
      then "this.server.callTool is not a function"
      else "Unknown method: " +:+ template_string (rpc_method r)
  end.

(** The message of the error a failed write throws. *)
Definition fault_message (f : WriteFault) : string :=
  match f with
  | FailsAtOpen msg => msg
  | FailsAfterTruncate _ msg => msg
  end.

(** The keys a schema looks at. *)
Fixpoint shape_keys {A} (sh : ZShape A) : list string :=
  match sh with
  | ZEnd => []
  | ZField key _ rest => key :: shape_keys rest
  end.

(** The dispatcher's manager and the world are the same in two states;
    only the HomeGraph handle may differ. *)
Definition same_session (s s' : McpSt) : Prop :=
  auth (fst s') = auth (fst s) /\ snd s' = snd s.

(** A computation of the dispatcher that leaves the manager and the world
    alone, however it ends. *)
Definition keeps_session {A} (c : M McpSt A) : Prop :=
  forall s, same_session s (snd (c s)).

(** * Properties *)

(** ** The dispatcher's envelope *)

Lemma try_catch_throw {S A} (c : M S A) (h : Exn -> M S A) s e s' :
  c s = (Throw e, s') -> try_catch c h s = h e s'.
Proof. intros H. unfold try_catch. now rewrite H. Qed.

Lemma try_catch_ok {S A} (c : M S A) (h : Exn -> M S A) s a s' :
  c s = (Ok a, s') -> try_catch c h s = (Ok a, s').
Proof. intros H. unfold try_catch. now rewrite H. Qed.

(** Whatever the switch throws comes back as a text result. *)
Lemma callTool_envelopes nm args s e s' :
  callTool_switch nm args s = (Throw e, s') ->
  callTool nm args s = (Ok (text_result ("Error: " +:+ exn_message e)), s').
Proof. intros H. unfold callTool. now rewrite (try_catch_throw _ _ _ _ _ H). Qed.

Lemma callTool_total nm args s :
  exists r s', callTool nm args s = (Ok r, s').
Proof.
  unfold callTool, try_catch.
  destruct (callTool_switch nm args s) as [[r | e] s']; eauto.
Qed.

Lemma in_catalog_false nm :
  in_catalog nm = false ->
  String.eqb nm "get_auth_url" = false /\ String.eqb nm "authenticate" = false /\
  String.eqb nm "execute_command" = false /\ String.eqb nm "query_devices" = false /\
  String.eqb nm "get_device_states" = false /\ String.eqb nm "list_devices" = false.
Proof.
  unfold in_catalog, catalog_names. simpl. intros H.
  repeat match type of H with
         | (_ || _)%bool = false => apply orb_false_elim in H; destruct H as [? H]
         end.
  repeat split; assumption.
Qed.

Lemma zodError_message_bracket issues :
  exists rest, zodError_message issues = "[" +:+ rest.
Proof. destruct issues; simpl; eauto. Qed.

Lemma not_authenticated_not_validation :
  ~ validation_failure_text "Error: Not authenticated. Please authenticate first.".
Proof.
  intros (issues & _ & H).
  destruct (zodError_message_bracket issues) as [rest E].
  rewrite E in H. simpl in H. discriminate H.
Qed.

Lemma require_authenticated_false s :
  isAuthenticated (auth (fst s)) = Ok false ->
  require_authenticated s = (Throw not_authenticated, s).
Proof.
  intros H. unfold require_authenticated, bind, auth_isAuthenticated.
  now rewrite H.
Qed.

(** When [isAuthenticated] throws, the gate passes the throw on. *)
Lemma require_authenticated_throw s e :
  isAuthenticated (auth (fst s)) = Throw e ->
  require_authenticated s = (Throw e, s).
Proof.
  intros H. unfold require_authenticated, bind, auth_isAuthenticated.
  now rewrite H.
Qed.

Lemma require_authenticated_true s :
  isAuthenticated (auth (fst s)) = Ok true ->
  require_authenticated s = (Ok tt, s).
Proof.
  intros H. unfold require_authenticated, bind, auth_isAuthenticated.
  now rewrite H.
Qed.

(** C1, as stated, fails: the [default:] branch throws inside the [try], so
    an unknown name comes back as an ordinary text result. *)
Lemma unknown_operation_counterexample :
  in_catalog "unknown_op" = false /\
  callTool "unknown_op" (Some ∅) (new_GoogleHomeMCP, empty_world)
  = (Ok (text_result "Error: Unknown tool: unknown_op"),
     (new_GoogleHomeMCP, empty_world)) /\
  ~ (exists e s', callTool "unknown_op" (Some ∅) (new_GoogleHomeMCP, empty_world)
                  = (Throw e, s')).
Proof.
  assert (E : callTool "unknown_op" (Some ∅) (new_GoogleHomeMCP, empty_world)
              = (Ok (text_result "Error: Unknown tool: unknown_op"),
                 (new_GoogleHomeMCP, empty_world))) by reflexivity.
  split; [reflexivity | split; [exact E |]].
  intros (e & s' & H). rewrite E in H. discriminate H.
Qed.

(** C1 (amended): the handler never throws; for a name that is not in the
    catalog it returns the text result [Error: Unknown tool: <name>] and
    leaves the state as it was. *)
Theorem unknown_operation_enveloped (nm : string) (args : option Args) (s : McpSt) :
  (exists r s', callTool nm args s = (Ok r, s')) /\
  (in_catalog nm = false ->
   callTool nm args s = (Ok (text_result ("Error: Unknown tool: " +:+ nm)), s)).
Proof.
  split; [apply callTool_total |].
  intros H. apply in_catalog_false in H.
  destruct H as (H1 & H2 & H3 & H4 & H5 & H6).
  apply (callTool_envelopes nm args s (Error ("Unknown tool: " +:+ nm)) s).
  unfold callTool_switch. now rewrite H1, H2, H3, H4, H5, H6.
Qed.

Lemma unknown_operation_enveloped_witness :
  in_catalog "turn_on_lights" = false /\
  callTool "turn_on_lights" None (new_GoogleHomeMCP, sample_world)
  = (Ok (text_result "Error: Unknown tool: turn_on_lights"),
     (new_GoogleHomeMCP, sample_world)).
Proof.
  split; [reflexivity |].
  apply (proj2 (unknown_operation_enveloped "turn_on_lights" None
                  (new_GoogleHomeMCP, sample_world))).
  reflexivity.
Defined.

Lemma auth_gate_throws nm args s :
  In nm auth_required ->
  isAuthenticated (auth (fst s)) = Ok false ->
  callTool_switch nm args s = (Throw not_authenticated, s).
Proof.
  intros Hin Hauth. simpl in Hin.
  destruct Hin as [<- | [<- | [<- | [<- | []]]]];
    unfold callTool_switch; simpl; unfold bind at 1;
    now rewrite (require_authenticated_false _ Hauth).
Qed.

(** C4: an operation that needs authentication, invoked while
    [isAuthenticated()] is false, returns the text result
    [Error: Not authenticated. Please authenticate first.] whatever the
    arguments are, and the dispatcher and the world stay as they were: no
    outbound call, no file access, no HomeGraph handle made. *)
Theorem unauthenticated_invoke_rejected (nm : string) (args : option Args) (s : McpSt) :
  In nm auth_required ->
  isAuthenticated (auth (fst s)) = Ok false ->
  callTool nm args s
  = (Ok (text_result "Error: Not authenticated. Please authenticate first."), s).
Proof.
  intros Hin Hauth.
  apply (callTool_envelopes nm args s not_authenticated s).
  now apply auth_gate_throws.
Qed.

Lemma unauthenticated_invoke_rejected_witness :
  callTool "execute_command" (Some {[ "command" := JStr "lights on" ]})
           (new_GoogleHomeMCP, sample_world)
  = (Ok (text_result "Error: Not authenticated. Please authenticate first."),
     (new_GoogleHomeMCP, sample_world)).
Proof.
  apply (unauthenticated_invoke_rejected "execute_command").
  - simpl. tauto.
  - reflexivity.
Defined.

(** ** Validation and the authentication gate *)

Lemma bind_ok {S A B} (c : M S A) (k : A -> M S B) s a s' :
  c s = (Ok a, s') -> bind c k s = k a s'.
Proof. intros H. unfold bind. now rewrite H. Qed.

Lemma bind_throw {S A B} (c : M S A) (k : A -> M S B) s e s' :
  c s = (Throw e, s') -> bind c k s = (Throw e, s').
Proof. intros H. unfold bind. now rewrite H. Qed.

(** C2, as stated, fails: [get_device_states] checks authentication before
    it parses its arguments, so without a session a call that misses
    [deviceIds] is answered with the authentication message, which is no
    validation failure. *)
Lemma validation_first_counterexample :
  In "deviceIds" (required_keys GetDeviceStatesSchema) /\
  ((∅ : Args) !! "deviceIds" = None) /\
  (callTool "get_device_states" (Some ∅) (new_GoogleHomeMCP, empty_world)
   = (Ok (text_result "Error: Not authenticated. Please authenticate first."),
      (new_GoogleHomeMCP, empty_world))) /\
  ~ validation_failure_text "Error: Not authenticated. Please authenticate first.".
Proof.
  split; [simpl; tauto |].
  split; [reflexivity |].
  split; [reflexivity | exact not_authenticated_not_validation].
Qed.

Lemma isAuthenticated_throws a e :
  isAuthenticated a = Throw e -> e = null_credentials.
Proof.
  unfold isAuthenticated.
  destruct (oauth2Client a) as [c |]; [| discriminate].
  destruct (credentials c); [discriminate |].
  now intros [= <-].
Qed.

Lemma auth_gate_rethrows nm args s e :
  In nm auth_required ->
  isAuthenticated (auth (fst s)) = Throw e ->
  callTool_switch nm args s = (Throw e, s).
Proof.
  intros Hin Hauth. simpl in Hin.
  destruct Hin as [<- | [<- | [<- | [<- | []]]]];
    unfold callTool_switch; simpl; unfold bind at 1;
    now rewrite (require_authenticated_throw _ _ Hauth).
Qed.

(** C2 (amended): for every operation of the catalog and every arguments
    mapping that misses a key its schema requires, the handler returns a
    text result and changes nothing (no token write, no outbound call). The
    text is the message of the [ZodError], with a [Required] issue at the
    missing key, when the operation is [authenticate] or
    [isAuthenticated()] returns true. For the guarded operations the
    authentication gate comes first: when [isAuthenticated()] returns
    false the text is the gate's own message, and when it throws (the
    client's credentials are [null]) the text is the message of that
    throw. *)
Theorem missing_required_field_enveloped
    (t : Tool) (key : string) (args : Args) (s : McpSt) :
  In t listTools ->
  In key (required_keys (projT2 (inputSchema t))) ->
  args !! key = None ->
  exists txt,
    callTool (name t) (Some args) s = (Ok (text_result txt), s) /\
    match (if String.eqb (name t) "authenticate" then Ok true
           else isAuthenticated (auth (fst s))) with
    | Ok true =>
        exists issues expected,
          txt = "Error: " +:+ zodError_message issues /\
          In (mkIssue expected PTundefined [PKey key]) issues /\
          issue_message (mkIssue expected PTundefined [PKey key]) = "Required"
    | Ok false => txt = "Error: Not authenticated. Please authenticate first."
    | Throw _ =>
        txt = "Error: Cannot read properties of null (reading 'access_token')"
    end.
Proof.
  intros Ht Hkey Hmiss. simpl in Ht.
  destruct Ht as [<- | [<- | [<- | [<- | [<- | [<- | []]]]]]]; simpl in Hkey;
    try contradiction; destruct Hkey as [<- | []]; simpl.
  - (* execute_command *)
    destruct (isAuthenticated (auth (fst s))) as [[|] | e] eqn:Hauth.
    + eexists. split.
      * apply callTool_envelopes. unfold callTool_switch. simpl.
        rewrite (bind_ok _ _ _ _ _ (require_authenticated_true _ Hauth)).
        apply bind_throw. simpl. rewrite Hmiss. reflexivity.
      * eexists _, PTstring. split; [reflexivity |]. simpl. tauto.
    + eexists. split; [| reflexivity].
      apply (callTool_envelopes _ _ s not_authenticated s).
      apply (auth_gate_throws "execute_command"); [simpl; tauto | exact Hauth].
    + rewrite (isAuthenticated_throws _ _ Hauth) in Hauth.
      eexists. split; [| reflexivity].
      apply (callTool_envelopes _ _ s null_credentials s).
      apply (auth_gate_rethrows "execute_command"); [simpl; tauto | exact Hauth].
  - (* get_device_states *)
    destruct (isAuthenticated (auth (fst s))) as [[|] | e] eqn:Hauth.
    + eexists. split.
      * apply callTool_envelopes. unfold callTool_switch. simpl.
        rewrite (bind_ok _ _ _ _ _ (require_authenticated_true _ Hauth)).
        apply bind_throw. simpl. rewrite Hmiss. reflexivity.
      * eexists _, PTarray. split; [reflexivity |]. simpl. tauto.
    + eexists. split; [| reflexivity].
      apply (callTool_envelopes _ _ s not_authenticated s).
      apply (auth_gate_throws "get_device_states"); [simpl; tauto | exact Hauth].
    + rewrite (isAuthenticated_throws _ _ Hauth) in Hauth.
      eexists. split; [| reflexivity].
      apply (callTool_envelopes _ _ s null_credentials s).
      apply (auth_gate_rethrows "get_device_states"); [simpl; tauto | exact Hauth].
  - (* authenticate *)
    eexists. split.
    + apply callTool_envelopes. unfold callTool_switch. simpl.
      apply bind_throw. simpl. rewrite Hmiss. reflexivity.
    + eexists _, PTstring. split; [reflexivity |]. simpl. tauto.
Qed.

Lemma missing_required_field_enveloped_witness :
  let s : McpSt :=
    (mkGoogleHomeMCP (mkGoogleAuth (Some (setCredentials sample_tokens sample_client)))
                     None, sample_world) in
  let s0 : McpSt := (mkGoogleHomeMCP null_credentials_auth None, sample_world) in
  (exists txt,
     callTool "get_device_states" (Some ∅) s = (Ok (text_result txt), s) /\
     exists issues expected,
       txt = "Error: " +:+ zodError_message issues /\
       In (mkIssue expected PTundefined [PKey "deviceIds"]) issues /\
       issue_message (mkIssue expected PTundefined [PKey "deviceIds"]) = "Required") /\
  (exists txt,
     callTool "get_device_states" (Some ∅) s0 = (Ok (text_result txt), s0) /\
     txt = "Error: Cannot read properties of null (reading 'access_token')").
Proof.
  intros s s0. split.
  - apply (missing_required_field_enveloped
             (mkTool "get_device_states" "Get detailed states of specific devices"
                     (schema GetDeviceStatesSchema))
             "deviceIds" ∅ s).
    + simpl. tauto.
    + simpl. tauto.
    + reflexivity.
  - apply (missing_required_field_enveloped
             (mkTool "get_device_states" "Get detailed states of specific devices"
                     (schema GetDeviceStatesSchema))
             "deviceIds" ∅ s0).
    + simpl. tauto.
    + simpl. tauto.
    + reflexivity.
Defined.

(** ** The credential manager *)

Section Effects.
Context {O : Type}.
Implicit Types (o : O) (w : World).

Lemma readFile_present path d o w :
  files w !! path = Some d ->
  readFile path (o, w) = (Ok d, (o, log_event (ReadFile path) w)).
Proof.
  intros H. unfold readFile, bind, on_world, modify, get. simpl.
  now rewrite H.
Qed.

Lemma readFile_absent path o w :
  files w !! path = None ->
  exists e, readFile path (o, w) = (Throw e, (o, log_event (ReadFile path) w)).
Proof.
  intros H. unfold readFile, bind, on_world, modify, get. simpl.
  rewrite H. eauto.
Qed.

Lemma getToken_granted code tokens o w :
  token_endpoint w code = Granted tokens ->
  getToken code (o, w) = (Ok tokens, (o, log_requests code w)).
Proof.
  intros H. unfold getToken, bind, on_world, modify, get. simpl.
  now rewrite H.
Qed.

Lemma getToken_refused code msg o w :
  token_endpoint w code = Refused msg ->
  getToken code (o, w) = (Throw (Error msg), (o, log_requests code w)).
Proof.
  intros H. unfold getToken, bind, on_world, modify, get. simpl.
  now rewrite H.
Qed.

Lemma writeFile_ok path data o w :
  write_fault w path = None ->
  writeFile path data (o, w)
  = (Ok tt, (o, set_files (<[path := data]> (files w))
                          (log_event (WriteFile path) w))).
Proof.
  intros H. unfold writeFile, bind, on_world, modify, get. simpl.
  now rewrite H.
Qed.
End Effects.

Lemma outbound_calls_log_read path w :
  outbound_calls (log_event (ReadFile path) w) = outbound_calls w.
Proof.
  unfold outbound_calls, log_event. simpl.
  rewrite List.filter_app. simpl. apply app_nil_r.
Qed.

Lemma writes_of_requests code n :
  List.filter is_write (repeat (TokenRequest code) n) = [].
Proof. induction n as [| n IH]; [reflexivity | exact IH]. Qed.

Lemma calls_of_requests code n :
  List.filter is_token_request (repeat (TokenRequest code) n)
  = repeat (TokenRequest code) n.
Proof.
  induction n as [| n IH]; [reflexivity |].
  change (repeat (TokenRequest code) (S n))
    with (TokenRequest code :: repeat (TokenRequest code) n).
  cbn [List.filter is_token_request]. now rewrite IH.
Qed.

Lemma file_writes_log_request code w :
  file_writes (log_requests code w) = file_writes w.
Proof.
  unfold file_writes, log_requests. cbn [trace].
  rewrite List.filter_app, writes_of_requests. apply app_nil_r.
Qed.

Lemma client_or_throw_none a w :
  oauth2Client a = None -> client_or_throw (a, w) = (Throw not_initialized, (a, w)).
Proof. intros H. unfold client_or_throw, bind, get. simpl. now rewrite H. Qed.

Lemma client_or_throw_some a w c :
  oauth2Client a = Some c -> client_or_throw (a, w) = (Ok c, (a, w)).
Proof. intros H. unfold client_or_throw, bind, get. simpl. now rewrite H. Qed.

(** The three ways [getTokenFromCode] can go before it reaches the disk. *)
Lemma getTokenFromCode_unconfigured code a w :
  oauth2Client a = None ->
  getTokenFromCode code (a, w) = (Throw not_initialized, (a, w)).
Proof.
  intros H. unfold getTokenFromCode.
  apply bind_throw. now apply client_or_throw_none.
Qed.

Lemma getTokenFromCode_refused code a w c msg :
  oauth2Client a = Some c ->
  token_endpoint w code = Refused msg ->
  getTokenFromCode code (a, w)
  = (Throw (Error msg), (a, log_requests code w)).
Proof.
  intros Hc Hr. unfold getTokenFromCode.
  rewrite (bind_ok _ _ _ _ _ (client_or_throw_some _ _ _ Hc)).
  apply bind_throw. now apply getToken_refused.
Qed.

Lemma getTokenFromCode_granted code a w c tokens :
  oauth2Client a = Some c ->
  token_endpoint w code = Granted tokens ->
  getTokenFromCode code (a, w)
  = writeFile tokenPath (JSON_stringify tokens)
      (mkGoogleAuth (Some (setCredentials tokens c)),
       log_requests code w).
Proof.
  intros Hc Hg. unfold getTokenFromCode.
  rewrite (bind_ok _ _ _ _ _ (client_or_throw_some _ _ _ Hc)).
  rewrite (bind_ok _ _ _ _ _ (getToken_granted _ _ _ _ Hg)).
  reflexivity.
Qed.

(** *** Code exchange *)

(** C3, as stated, fails: the tokens are put on the client before the file
    is written, so an exchange that fails at the write surfaces its error
    with the manager already authenticated. *)
Lemma exchange_all_or_nothing_counterexample :
  isAuthenticated configured_auth = Ok false /\
  exists a' w',
    getTokenFromCode "valid-code" (configured_auth, unwritable_world)
    = (Throw (Error "EACCES: permission denied, open 'token.json'"), (a', w')) /\
    isAuthenticated a' = Ok true /\
    isAuthenticated a' <> isAuthenticated configured_auth.
Proof.
  split; [reflexivity |].
  eexists _, _. split; [reflexivity |].
  split; [reflexivity | discriminate].
Qed.

(** Every way a call of [getTokenFromCode] can end. *)
Lemma getTokenFromCode_inv code a w r a' w' :
  getTokenFromCode code (a, w) = (r, (a', w')) ->
  (oauth2Client a = None /\ r = Throw not_initialized /\ a' = a /\ w' = w) \/
  (exists c msg,
     oauth2Client a = Some c /\ token_endpoint w code = Refused msg /\
     r = Throw (Error msg) /\ a' = a /\ w' = log_requests code w) \/
  (exists c tokens,
     oauth2Client a = Some c /\ token_endpoint w code = Granted tokens /\
     writeFile tokenPath (JSON_stringify tokens)
       (mkGoogleAuth (Some (setCredentials tokens c)),
        log_requests code w)
     = (r, (a', w'))).
Proof.
  intros H.
  destruct (oauth2Client a) as [c |] eqn:Hc.
  - destruct (token_endpoint w code) as [tokens | msg] eqn:Ht.
    + right; right. exists c, tokens.
      rewrite (getTokenFromCode_granted _ _ _ _ _ Hc Ht) in H. auto.
    + right; left. exists c, msg.
      rewrite (getTokenFromCode_refused _ _ _ _ _ Hc Ht) in H.
      injection H as <- <- <-. auto.
  - left. rewrite (getTokenFromCode_unconfigured _ _ _ Hc) in H.
    injection H as <- <- <-. auto.
Qed.

(** C3 (amended): an exchange that fails because no client exists or
    because the provider refuses the code (invalid or expired code, network
    error) surfaces the error and leaves the manager, and so
    [isAuthenticated()], and every file as they were; no write is
    attempted, only the requests of the exchange are added to the trace.
    The token file is written to only after the provider has granted a
    TokenSet. *)
Theorem failed_exchange_leaves_state (code : string) (a : GoogleAuth) (w : World) :
  (oauth2Client a = None \/ (exists msg, token_endpoint w code = Refused msg) ->
   exists e w',
     getTokenFromCode code (a, w) = (Throw e, (a, w')) /\
     files w' = files w /\
     file_writes w' = file_writes w) /\
  (forall r a' w',
     getTokenFromCode code (a, w) = (r, (a', w')) ->
     files w' <> files w \/ file_writes w' <> file_writes w ->
     exists c tokens,
       oauth2Client a = Some c /\ token_endpoint w code = Granted tokens).
Proof.
  split.
  - intros H.
    destruct (oauth2Client a) as [c |] eqn:Hc.
    + destruct H as [H | [msg H]]; [discriminate H |].
      exists (Error msg), (log_requests code w).
      split; [now apply (getTokenFromCode_refused code a w c) |].
      split; [reflexivity | apply file_writes_log_request].
    + exists not_initialized, w.
      split; [now apply getTokenFromCode_unconfigured | auto].
  - intros r a' w' H Hchanged.
    destruct (getTokenFromCode_inv _ _ _ _ _ _ H)
      as [(_ & _ & _ & ->) | [(c & msg & _ & _ & _ & _ & ->) | (c & tokens & Hc & Ht & _)]].
    + destruct Hchanged as [Hc | Hc]; now contradiction Hc.
    + destruct Hchanged as [Hc | Hc]; contradiction Hc;
        [reflexivity | apply file_writes_log_request].
    + eauto.
Qed.

Lemma failed_exchange_leaves_state_witness :
  exists e w',
    getTokenFromCode "expired-code" (configured_auth, sample_world)
    = (Throw e, (configured_auth, w')) /\
    files w' = files sample_world /\
    file_writes w' = file_writes sample_world.
Proof.
  apply (proj1 (failed_exchange_leaves_state "expired-code" configured_auth
                  sample_world)).
  right. exists "invalid_grant". reflexivity.
Defined.






(** *** The authorization URL *)

Lemma generateAuthUrl_offline c :
  generateAuthUrl "offline" scopes c
  = authorization_url (_clientId c) (redirectUri c).
Proof. vm_compute. reflexivity. Qed.

Lemma getAuthUrl_some a w c :
  oauth2Client a = Some c ->
  getAuthUrl (a, w) = (Ok (authorization_url (_clientId c) (redirectUri c)), (a, w)).
Proof.
  intros H. unfold getAuthUrl.
  rewrite (bind_ok _ _ _ _ _ (client_or_throw_some _ _ _ H)).
  unfold ret. now rewrite generateAuthUrl_offline.
Qed.

Lemma getAuthUrl_none a w :
  oauth2Client a = None ->
  getAuthUrl (a, w) = (Throw not_initialized, (a, w)).
Proof.
  intros H. unfold getAuthUrl. apply bind_throw. now apply client_or_throw_none.
Qed.

(** C6: without a client [getAuthUrl] throws [OAuth2 client not
    initialized]; with one it returns, changing neither the manager nor the
    world, the authorization URL of the client's id and redirect URI, with
    [access_type=offline] and both scopes in it; two managers whose clients
    were built from the same credential get the same URL, whatever tokens
    they hold and whatever the world is. *)
Theorem getAuthUrl_contract (a : GoogleAuth) (w : World) :
  (oauth2Client a = None ->
   getAuthUrl (a, w) = (Throw (Error "OAuth2 client not initialized"), (a, w))) /\
  (forall c, oauth2Client a = Some c ->
     getAuthUrl (a, w)
     = (Ok (authorization_url (_clientId c) (redirectUri c)), (a, w))) /\
  (forall c a2 w2 c2,
     oauth2Client a = Some c -> oauth2Client a2 = Some c2 ->
     _clientId c = _clientId c2 -> redirectUri c = redirectUri c2 ->
     fst (getAuthUrl (a, w)) = fst (getAuthUrl (a2, w2))).
Proof.
  split; [apply getAuthUrl_none |].
  split; [intros c; apply getAuthUrl_some |].
  intros c a2 w2 c2 H1 H2 Hid Hred.
  rewrite (getAuthUrl_some _ _ _ H1), (getAuthUrl_some _ _ _ H2).
  simpl. now rewrite Hid, Hred.
Qed.

Lemma getAuthUrl_contract_witness :
  getAuthUrl (configured_auth, sample_world)
  = (Ok ("https://accounts.google.com/o/oauth2/v2/auth?access_type=offline&scope=https%3A%2F%2Fwww.googleapis.com%2Fauth%2Fhomegraph%20https%3A%2F%2Fwww.googleapis.com%2Fauth%2Fassistant-sdk-prototype&response_type=code&client_id=my-client.apps.googleusercontent.com&redirect_uri=http%3A%2F%2Flocalhost%3A3000%2Foauth2callback"),
     (configured_auth, sample_world)) /\
  getAuthUrl (new_GoogleAuth, sample_world)
  = (Throw (Error "OAuth2 client not initialized"), (new_GoogleAuth, sample_world)).
Proof.
  split.
  - apply (proj1 (proj2 (getAuthUrl_contract configured_auth sample_world))
             sample_client).
    reflexivity.
  - apply (proj1 (getAuthUrl_contract new_GoogleAuth sample_world)).
    reflexivity.
Defined.

(** *** The authentication predicate *)

(** C8: [isAuthenticated] is a function of the manager alone (it takes no
    world and returns none, so it makes no call); it returns true exactly
    when a client exists whose credentials hold a non-empty access token;
    the expiry date plays no part, so a token that has expired still
    counts. It returns a boolean in every state but one: with a client
    whose credentials are [null] the read of the access token throws. *)
Theorem isAuthenticated_iff (a : GoogleAuth) :
  (isAuthenticated a = Ok true <->
   exists c t tok, oauth2Client a = Some c /\
                   credentials c = Some t /\
                   access_token t = Some tok /\ tok <> "") /\
  (forall c e, oauth2Client a = Some c ->
     isAuthenticated (mkGoogleAuth (Some (with_expiry_date e c)))
     = isAuthenticated a) /\
  (forall e, isAuthenticated a = Throw e <->
     e = null_credentials /\
     exists c, oauth2Client a = Some c /\ credentials c = None).
Proof.
  split; [| split].
  - unfold isAuthenticated. split.
    + destruct (oauth2Client a) as [c |]; [| discriminate].
      destruct (credentials c) as [t |] eqn:Ec; [| discriminate].
      destruct (access_token t) as [tok |] eqn:E; [| discriminate].
      intros H. exists c, t, tok. repeat split; try assumption.
      intros ->. discriminate H.
    + intros (c & t & tok & -> & -> & -> & Hne).
      destruct tok; [contradiction | reflexivity].
  - intros c e H. unfold isAuthenticated. rewrite H.
    cbn [oauth2Client]. unfold with_expiry_date.
    destruct (credentials c) as [t |] eqn:Ec.
    + reflexivity.
    + now rewrite Ec.
  - intros e. unfold isAuthenticated. split.
    + destruct (oauth2Client a) as [c |]; [| discriminate].
      destruct (credentials c) as [t |] eqn:Ec; [discriminate |].
      intros [= <-]. split; [reflexivity | eauto].
    + intros (-> & c & -> & ->). reflexivity.
Qed.

Lemma isAuthenticated_iff_witness :
  isAuthenticated
    (mkGoogleAuth (Some (with_expiry_date (Some 0%Z)
                           (setCredentials sample_tokens sample_client))))
  = Ok true /\
  isAuthenticated null_credentials_auth = Throw null_credentials /\
  fst (snd (initialize (new_GoogleAuth, null_token_world))) = null_credentials_auth.
Proof.
  split; [| split; [| reflexivity]].
  - apply (proj2 (proj1 (isAuthenticated_iff _))).
    exists (with_expiry_date (Some 0%Z) (setCredentials sample_tokens sample_client)),
           (mkTokenSet (Some "ya29.token") (Some "1//refresh") None (Some "Bearer")
                       None (Some 0%Z)),
           "ya29.token".
    repeat split. discriminate.
  - apply (proj2 (proj2 (proj2 (isAuthenticated_iff null_credentials_auth))
                    null_credentials)).
    split; [reflexivity |].
    exists (setCredentials JsonNull sample_client). split; reflexivity.
Defined.

(** *** Initialisation *)

Lemma after_load_files w : files (after_load w) = files w.
Proof. unfold after_load. now destruct (truthy_doc _). Qed.

Lemma after_load_outbound w : outbound_calls (after_load w) = outbound_calls w.
Proof.
  unfold after_load. destruct (truthy_doc _); [reflexivity |].
  apply outbound_calls_log_read.
Qed.

Lemma load_credentials_source a w cr :
  credential_source w = Some cr ->
  exists j, load_credentials (a, w) = (Ok (Some j), (a, after_load w)) /\
            installed_or_web j = Some cr.
Proof.
  unfold credential_source, load_credentials, after_load, bind,
    getenv_GOOGLE_CREDENTIALS. simpl.
  destruct (truthy_doc (env_GOOGLE_CREDENTIALS w)) eqn:Henv.
  - destruct (env_GOOGLE_CREDENTIALS w) as [[raw | j] |]; try discriminate.
    intros H. exists j. split; [reflexivity | exact H].
  - destruct (files w !! credentialsPath) as [[raw | j] |] eqn:Hf; try discriminate.
    intros H. exists j. split; [| exact H].
    unfold try_catch, bind.
    rewrite (readFile_present _ _ _ _ Hf). reflexivity.
Qed.

(** C9: with the environment variable unset (or empty) and no credentials
    file that can be read as JSON (none at all, in particular),
    [initialize] on a fresh manager returns without throwing and builds no
    client: afterwards [isAuthenticated()] is false and [getAuthUrl]
    throws [OAuth2 client not initialized]. Nothing is written and no
    outbound call is made. *)
Theorem initialize_without_credentials (w : World) :
  truthy_doc (env_GOOGLE_CREDENTIALS w) = false ->
  parses (files w !! credentialsPath) = false ->
  exists a' w',
    initialize (new_GoogleAuth, w) = (Ok tt, (a', w')) /\
    oauth2Client a' = None /\
    isAuthenticated a' = Ok false /\
    getAuthUrl (a', w')
    = (Throw (Error "OAuth2 client not initialized"), (a', w')) /\
    files w' = files w /\
    outbound_calls w' = outbound_calls w.
Proof.
  intros Henv Hfile.
  exists new_GoogleAuth, (log_event (ReadFile credentialsPath) w).
  split.
  - unfold initialize, try_catch at 1, bind at 1, load_credentials, bind at 1,
      getenv_GOOGLE_CREDENTIALS. simpl.
    rewrite Henv. unfold try_catch, bind at 1.
    destruct (files w !! credentialsPath) as [[raw | j] |] eqn:Hf;
      try discriminate Hfile.
    + rewrite (readFile_present _ _ _ _ Hf). reflexivity.
    + destruct (readFile_absent credentialsPath new_GoogleAuth w Hf) as [e ->].
      reflexivity.
  - repeat split; try reflexivity.
    apply outbound_calls_log_read.
Qed.

Lemma initialize_without_credentials_witness :
  exists a' w',
    initialize (new_GoogleAuth, empty_world) = (Ok tt, (a', w')) /\
    oauth2Client a' = None /\
    isAuthenticated a' = Ok false /\
    getAuthUrl (a', w')
    = (Throw (Error "OAuth2 client not initialized"), (a', w')) /\
    files w' = files empty_world /\
    outbound_calls w' = outbound_calls empty_world.
Proof.
  apply (initialize_without_credentials empty_world); reflexivity.
Defined.





(** ** The device stubs *)

Lemma isAuthenticated_client a :
  isAuthenticated a = Ok true -> exists c, oauth2Client a = Some c.
Proof.
  unfold isAuthenticated. destruct (oauth2Client a) as [c |]; [eauto | discriminate].
Qed.

(** With a session, making sure of the HomeGraph handle never throws. *)
Lemma ensure_homegraph_ok (s : McpSt) :
  isAuthenticated (auth (fst s)) = Ok true ->
  exists s', ensure_homegraph s = (Ok tt, s').
Proof.
  intros H. destruct (isAuthenticated_client _ H) as [c Hc].
  destruct s as [[au hg] w]. simpl in *.
  unfold ensure_homegraph, bind, get. simpl.
  destruct hg as [h |]; [eauto |].
  unfold make_homegraph, bind, with_auth, zoom, getClient. simpl.
  rewrite (client_or_throw_some _ _ _ Hc). simpl. eauto.
Qed.

(** Enter a guarded case of the switch with a session at hand. *)
Ltac pass_gate Hauth :=
  unfold callTool, try_catch, callTool_switch; simpl;
  rewrite !(bind_ok _ _ _ _ _ (require_authenticated_true _ Hauth)).

Lemma devices_or_all_empty : devices_or_all (Some []) = "all devices".
Proof. reflexivity. Qed.

Lemma devices_or_all_omitted : devices_or_all None = "all devices".
Proof. reflexivity. Qed.

Lemma execute_command_empty_devices args s command :
  isAuthenticated (auth (fst s)) = Ok true ->
  args !! "command" = Some (JStr command) ->
  args !! "devices" = Some (JArr []) ->
  fst (callTool "execute_command" (Some args) s)
  = Ok (text_result ("Command " +:+ quoted command +:+
                     " would be executed on devices: all devices")).
Proof.
  intros Hauth Hcmd Hdev.
  destruct (ensure_homegraph_ok s Hauth) as [s' Hs'].
  pass_gate Hauth.
  unfold bind at 1. simpl. rewrite Hcmd, Hdev. simpl.
  unfold bind at 1. rewrite Hs'. reflexivity.
Qed.

Lemma query_devices_empty_devices args s :
  isAuthenticated (auth (fst s)) = Ok true ->
  args !! "devices" = Some (JArr []) ->
  fst (callTool "query_devices" (Some args) s)
  = Ok (text_result "Querying devices: all devices").
Proof.
  intros Hauth Hdev.
  destruct (ensure_homegraph_ok s Hauth) as [s' Hs'].
  pass_gate Hauth.
  unfold bind at 1. simpl. rewrite Hdev. simpl.
  unfold bind at 1. rewrite Hs'. reflexivity.
Qed.

(** An empty [devices] array and no [devices] key at all parse to values
    that render alike, whatever else the arguments hold. *)
Lemma execute_command_empty_as_omitted args s :
  isAuthenticated (auth (fst s)) = Ok true ->
  args !! "devices" = Some (JArr []) ->
  callTool "execute_command" (Some args) s
  = callTool "execute_command" (Some (delete "devices" args)) s.
Proof.
  intros Hauth Hdev.
  pass_gate Hauth.
  unfold bind at 1 3. simpl.
  rewrite lookup_delete_eq, lookup_delete_ne by discriminate.
  rewrite Hdev. simpl.
  destruct (args !! "command") as [[| b | n | str | items | fields] |]; reflexivity.
Qed.

Lemma query_devices_empty_as_omitted args s :
  isAuthenticated (auth (fst s)) = Ok true ->
  args !! "devices" = Some (JArr []) ->
  callTool "query_devices" (Some args) s
  = callTool "query_devices" (Some (delete "devices" args)) s.
Proof.
  intros Hauth Hdev.
  pass_gate Hauth.
  unfold bind at 1 3. simpl.
  rewrite lookup_delete_eq. rewrite Hdev. reflexivity.
Qed.

(** C10: with a session, [execute_command] and [query_devices] called with
    an empty [devices] array report the target as [all devices], and the
    whole call, result and state, is the one obtained with the [devices]
    key left out. *)
Theorem empty_devices_means_all_devices (args : Args) (s : McpSt) :
  isAuthenticated (auth (fst s)) = Ok true ->
  args !! "devices" = Some (JArr []) ->
  (forall command, args !! "command" = Some (JStr command) ->
     fst (callTool "execute_command" (Some args) s)
     = Ok (text_result ("Command " +:+ quoted command +:+
                        " would be executed on devices: all devices"))) /\
  fst (callTool "query_devices" (Some args) s)
  = Ok (text_result "Querying devices: all devices") /\
  callTool "execute_command" (Some args) s
  = callTool "execute_command" (Some (delete "devices" args)) s /\
  callTool "query_devices" (Some args) s
  = callTool "query_devices" (Some (delete "devices" args)) s.
Proof.
  intros Hauth Hdev.
  split; [intros command Hcmd; now apply execute_command_empty_devices |].
  split; [now apply query_devices_empty_devices |].
  split; [now apply execute_command_empty_as_omitted
         | now apply query_devices_empty_as_omitted].
Qed.

Lemma empty_devices_means_all_devices_witness :
  let s : McpSt :=
    (mkGoogleHomeMCP (mkGoogleAuth (Some (setCredentials sample_tokens sample_client)))
                     None, sample_world) in
  let args : Args := {[ "command" := JStr "lights off"; "devices" := JArr [] ]} in
  fst (callTool "execute_command" (Some args) s)
  = Ok (text_result ("Command " +:+ quoted "lights off" +:+
                     " would be executed on devices: all devices")) /\
  fst (callTool "query_devices" (Some args) s)
  = Ok (text_result "Querying devices: all devices").
Proof.
  intros s args.
  destruct (empty_devices_means_all_devices args s eq_refl eq_refl)
    as (Hexec & Hquery & _).
  split; [apply (Hexec "lights off"); reflexivity | exact Hquery].
Defined.

(** * Further properties of the code *)

(** ** [initialize] *)

Lemma token_restore_run cr w0 :
  try_catch
    (bind (readFile tokenPath) (fun tokenContent =>
     bind (JSON_parse tokenContent) (fun token =>
     bind client_or_throw (fun client =>
     set_oauth2Client (setCredentials token client)))))
    (fun _ => ret tt)
    (mkGoogleAuth (Some (new_OAuth2Client (client_id cr) (client_secret cr)
                                          (head (redirect_uris cr)))), w0)
  = (Ok tt, (mkGoogleAuth (Some (initialized_client cr w0)),
             log_event (ReadFile tokenPath) w0)).
Proof.
  unfold initialized_client, try_catch, bind at 1.
  destruct (files w0 !! tokenPath) as [[raw | j] |] eqn:Hf.
  - rewrite (readFile_present _ _ _ _ Hf). reflexivity.
  - rewrite (readFile_present _ _ _ _ Hf). reflexivity.
  - destruct (readFile_absent tokenPath
               (mkGoogleAuth (Some (new_OAuth2Client (client_id cr) (client_secret cr)
                                                     (head (redirect_uris cr)))))
               w0 Hf) as [e ->].
    reflexivity.
Qed.

(** Every run of [initialize], in one equation. *)
Lemma initialize_run a w :
  initialize (a, w) = (Ok tt, (initialized a w, after_initialize w)).
Proof.
  unfold initialized, after_initialize.
  destruct (credential_source w) as [cr |] eqn:Hsrc.
  - destruct (load_credentials_source a w cr Hsrc) as (j & Hload & Hj).
    unfold initialize, try_catch at 1.
    rewrite (bind_ok _ _ _ _ _ Hload). rewrite Hj.
    unfold bind at 1, set_oauth2Client at 1, modify. simpl.
    rewrite token_restore_run.
    unfold initialized_client. rewrite after_load_files. reflexivity.
  - unfold credential_source in Hsrc. unfold after_load.
    unfold initialize, try_catch at 1, bind at 1, load_credentials, bind at 1,
      getenv_GOOGLE_CREDENTIALS. simpl.
    destruct (truthy_doc (env_GOOGLE_CREDENTIALS w)) eqn:Henv.
    + destruct (env_GOOGLE_CREDENTIALS w) as [[raw | j] |]; try discriminate Henv.
      * reflexivity.
      * simpl. unfold bind, ret. simpl. rewrite Hsrc. reflexivity.
    + unfold try_catch, bind at 1.
      destruct (files w !! credentialsPath) as [[raw | j] |] eqn:Hf.
      * rewrite (readFile_present _ _ _ _ Hf). reflexivity.
      * rewrite (readFile_present _ _ _ _ Hf). simpl. unfold bind, ret. simpl.
        rewrite Hsrc. reflexivity.
      * destruct (readFile_absent credentialsPath a w Hf) as [e ->]. reflexivity.
Qed.

Lemma file_writes_log_read path w :
  file_writes (log_event (ReadFile path) w) = file_writes w.
Proof.
  unfold file_writes, log_event. simpl.
  rewrite List.filter_app. simpl. apply app_nil_r.
Qed.

Lemma after_load_writes w : file_writes (after_load w) = file_writes w.
Proof.
  unfold after_load. destruct (truthy_doc _); [reflexivity |].
  apply file_writes_log_read.
Qed.

Lemma after_load_env w :
  env_GOOGLE_CREDENTIALS (after_load w) = env_GOOGLE_CREDENTIALS w.
Proof. unfold after_load. now destruct (truthy_doc _). Qed.

Lemma after_initialize_files w : files (after_initialize w) = files w.
Proof.
  unfold after_initialize.
  destruct (credential_source w); simpl; apply after_load_files.
Qed.

Lemma after_initialize_env w :
  env_GOOGLE_CREDENTIALS (after_initialize w) = env_GOOGLE_CREDENTIALS w.
Proof.
  unfold after_initialize.
  destruct (credential_source w); simpl; apply after_load_env.
Qed.

Lemma after_initialize_outbound w :
  outbound_calls (after_initialize w) = outbound_calls w.
Proof.
  unfold after_initialize. destruct (credential_source w).
  - rewrite outbound_calls_log_read. apply after_load_outbound.
  - apply after_load_outbound.
Qed.

Lemma after_initialize_writes w :
  file_writes (after_initialize w) = file_writes w.
Proof.
  unfold after_initialize. destruct (credential_source w).
  - rewrite file_writes_log_read. apply after_load_writes.
  - apply after_load_writes.
Qed.

Lemma after_initialize_source w :
  credential_source (after_initialize w) = credential_source w.
Proof.
  unfold credential_source.
  now rewrite after_initialize_env, after_initialize_files.
Qed.

(** X1: [initialize] never throws, whatever the manager and the world are
    (a text that does not parse, a document without entries, a missing
    file): it returns, and it has only read: every file and the
    environment are as before, no outbound call and no write was made. *)
Theorem initialize_soft_failure (a : GoogleAuth) (w : World) :
  exists a' w',
    initialize (a, w) = (Ok tt, (a', w')) /\
    files w' = files w /\
    env_GOOGLE_CREDENTIALS w' = env_GOOGLE_CREDENTIALS w /\
    outbound_calls w' = outbound_calls w /\
    file_writes w' = file_writes w.
Proof.
  exists (initialized a w), (after_initialize w).
  split; [apply initialize_run |].
  split; [apply after_initialize_files |].
  split; [apply after_initialize_env |].
  split; [apply after_initialize_outbound | apply after_initialize_writes].
Qed.

(** X2: when [GOOGLE_CREDENTIALS] is set to a text that is not JSON,
    [initialize] gives up without a word: it does not fall back to
    [credentials.json] (nothing is read at all) and the manager stays as
    it was. *)
Theorem malformed_env_no_fallback (a : GoogleAuth) (w : World) (raw : string) :
  env_GOOGLE_CREDENTIALS w = Some (RawText raw) ->
  raw <> "" ->
  initialize (a, w) = (Ok tt, (a, w)).
Proof.
  intros Henv Hraw.
  assert (Htruthy : truthy_doc (env_GOOGLE_CREDENTIALS w) = true).
  { rewrite Henv. simpl. destruct raw; [contradiction | reflexivity]. }
  rewrite initialize_run.
  unfold initialized, after_initialize, credential_source, after_load.
  rewrite Htruthy, Henv. reflexivity.
Qed.

(** A world with a good [credentials.json] and a broken environment
    variable. *)
Lemma malformed_env_no_fallback_witness :
  let w := mkWorld (Some (RawText "{client_id:")) (files sample_world)
                   (token_endpoint sample_world) (token_retries sample_world)
                   (write_fault sample_world) [] in
  credential_source (mkWorld None (files w) (token_endpoint w) (token_retries w)
                             (write_fault w) [])
  = Some sample_credentials /\
  initialize (new_GoogleAuth, w) = (Ok tt, (new_GoogleAuth, w)).
Proof.
  intros w. split; [reflexivity |].
  apply (malformed_env_no_fallback new_GoogleAuth w "{client_id:").
  - reflexivity.
  - discriminate.
Defined.

(** X3: when [GOOGLE_CREDENTIALS] holds a credentials document, the client
    is built from it and [credentials.json] is not read: the only read is
    that of the token file. *)
Theorem env_credentials_win
    (a : GoogleAuth) (w : World) (j : Json) (cr : Credentials) :
  env_GOOGLE_CREDENTIALS w = Some (JsonText j) ->
  installed_or_web j = Some cr ->
  exists w',
    initialize (a, w)
    = (Ok tt, (mkGoogleAuth (Some (initialized_client cr w)), w')) /\
    trace w' = (trace w ++ [ReadFile tokenPath])%list.
Proof.
  intros Henv Hj.
  assert (Hsrc : credential_source w = Some cr).
  { unfold credential_source. rewrite Henv. simpl. exact Hj. }
  exists (after_initialize w). split.
  - rewrite initialize_run. unfold initialized. now rewrite Hsrc.
  - unfold after_initialize, after_load. rewrite Hsrc, Henv. reflexivity.
Qed.

Lemma env_credentials_win_witness :
  let other := mkCredentials "other-id" "other-secret" ["https://example.org/cb"] in
  let w := mkWorld (Some (JsonText (JCredentials (mkCredentialsFile None (Some other)))))
                   (files sample_world) (token_endpoint sample_world)
                   (token_retries sample_world) (write_fault sample_world) [] in
  exists w',
    initialize (new_GoogleAuth, w)
    = (Ok tt, (mkGoogleAuth (Some (new_OAuth2Client "other-id" "other-secret"
                                     (Some "https://example.org/cb"))), w')) /\
    trace w' = [ReadFile tokenPath].
Proof.
  intros other w.
  apply (env_credentials_win new_GoogleAuth w
           (JCredentials (mkCredentialsFile None (Some other))) other);
    reflexivity.
Defined.

(** X4: with a credential source and no token file that can be read as
    JSON, [initialize] builds the client from the credential (its id, its
    secret, the first of its redirect URIs) with no tokens: the manager is
    configured and not authenticated, and [getAuthUrl] gives the
    authorization URL. *)
Theorem initialize_unauthenticated (a : GoogleAuth) (w : World) (cr : Credentials) :
  credential_source w = Some cr ->
  parses (files w !! tokenPath) = false ->
  exists a' w',
    initialize (a, w) = (Ok tt, (a', w')) /\
    oauth2Client a'
    = Some (new_OAuth2Client (client_id cr) (client_secret cr)
                             (head (redirect_uris cr))) /\
    isAuthenticated a' = Ok false /\
    getAuthUrl (a', w')
    = (Ok (authorization_url (client_id cr) (head (redirect_uris cr))), (a', w')).
Proof.
  intros Hsrc Htok.
  exists (initialized a w), (after_initialize w).
  split; [apply initialize_run |].
  assert (E : initialized a w
              = mkGoogleAuth (Some (new_OAuth2Client (client_id cr) (client_secret cr)
                                                     (head (redirect_uris cr))))).
  { unfold initialized, initialized_client. rewrite Hsrc.
    destruct (files w !! tokenPath) as [[raw | j] |]; try reflexivity.
    discriminate Htok. }
  rewrite E. split; [reflexivity |]. split; [reflexivity |].
  exact (getAuthUrl_some
           (mkGoogleAuth (Some (new_OAuth2Client (client_id cr) (client_secret cr)
                                                 (head (redirect_uris cr)))))
           (after_initialize w)
           (new_OAuth2Client (client_id cr) (client_secret cr)
                             (head (redirect_uris cr)))
           eq_refl).
Qed.

Lemma initialize_unauthenticated_witness :
  exists a' w',
    initialize (new_GoogleAuth, sample_world) = (Ok tt, (a', w')) /\
    oauth2Client a' = Some sample_client /\
    isAuthenticated a' = Ok false /\
    getAuthUrl (a', w')
    = (Ok (authorization_url (client_id sample_credentials)
                             (head (redirect_uris sample_credentials))), (a', w')).
Proof.
  apply (initialize_unauthenticated new_GoogleAuth sample_world sample_credentials);
    reflexivity.
Defined.

(** X5: [initialize] is idempotent on the manager: initialising again, in
    the world the first initialisation left, gives the same manager. *)
Theorem initialize_idempotent (a : GoogleAuth) (w : World) :
  fst (snd (initialize (snd (initialize (a, w)))))
  = fst (snd (initialize (a, w))).
Proof.
  rewrite (initialize_run a w). simpl. rewrite initialize_run. simpl.
  unfold initialized at 1. rewrite after_initialize_source.
  unfold initialized.
  destruct (credential_source w) as [cr |]; [| reflexivity].
  unfold initialized_client. now rewrite after_initialize_files.
Qed.

(** X6: with a credential source, [initialize] builds the client anew:
    whatever the manager held before, tokens that were only in memory
    included, is replaced by what the credential and the token file give. *)
Theorem initialize_forgets_memory (a : GoogleAuth) (w : World) (cr : Credentials) :
  credential_source w = Some cr ->
  fst (snd (initialize (a, w))) = fst (snd (initialize (new_GoogleAuth, w))) /\
  oauth2Client (fst (snd (initialize (a, w)))) = Some (initialized_client cr w).
Proof.
  intros Hsrc. rewrite !initialize_run. simpl.
  unfold initialized. rewrite Hsrc. split; reflexivity.
Qed.

(** A manager that holds tokens, in a world without a token file. *)
Lemma initialize_forgets_memory_witness :
  let a := mkGoogleAuth (Some (setCredentials sample_tokens sample_client)) in
  isAuthenticated a = Ok true /\
  isAuthenticated (fst (snd (initialize (a, sample_world)))) = Ok false.
Proof.
  intros a. split; [reflexivity |].
  destruct (initialize_forgets_memory a sample_world sample_credentials eq_refl)
    as [-> _].
  reflexivity.
Defined.

(** ** [getTokenFromCode] *)

Lemma writeFile_run {O : Type} path data (o : O) w :
  writeFile path data (o, w)
  = match write_fault w path with
    | None =>
        (Ok tt, (o, set_files (<[path := data]> (files w))
                              (log_event (WriteFile path) w)))
    | Some (FailsAtOpen msg) =>
        (Throw (Error msg), (o, log_event (WriteFile path) w))
    | Some (FailsAfterTruncate written msg) =>
        (Throw (Error msg),
         (o, set_files (<[path := RawText written]> (files w))
                       (log_event (WriteFile path) w)))
    end.
Proof.
  unfold writeFile, bind, on_world, modify, get. simpl.
  destruct (write_fault w path) as [[msg | written msg] |]; reflexivity.
Qed.

(** Every run of [getTokenFromCode], in one equation. *)
Lemma getTokenFromCode_run code a w :
  getTokenFromCode code (a, w)
  = match oauth2Client a with
    | None => (Throw not_initialized, (a, w))
    | Some c =>
        match token_endpoint w code with
        | Refused msg => (Throw (Error msg), (a, log_requests code w))
        | Granted tokens =>
            writeFile tokenPath (JSON_stringify tokens)
              (mkGoogleAuth (Some (setCredentials tokens c)),
               log_requests code w)
        end
    end.
Proof.
  destruct (oauth2Client a) as [c |] eqn:Hc.
  - destruct (token_endpoint w code) as [tokens | msg] eqn:Ht.
    + now apply getTokenFromCode_granted.
    + now apply (getTokenFromCode_refused code a w c).
  - now apply getTokenFromCode_unconfigured.
Qed.

Lemma outbound_calls_log_request code w :
  outbound_calls (log_requests code w)
  = (outbound_calls w ++ repeat (TokenRequest code) (S (token_retries w code)))%list.
Proof.
  unfold outbound_calls, log_requests. cbn [trace].
  now rewrite List.filter_app, calls_of_requests.
Qed.

Lemma outbound_calls_log_write path w :
  outbound_calls (log_event (WriteFile path) w) = outbound_calls w.
Proof.
  unfold outbound_calls, log_event. simpl.
  rewrite List.filter_app. simpl. apply app_nil_r.
Qed.

Lemma file_writes_log_write path w :
  file_writes (log_event (WriteFile path) w)
  = (file_writes w ++ [WriteFile path])%list.
Proof.
  unfold file_writes, log_event. simpl. now rewrite List.filter_app.
Qed.

(** X7: when the provider grants a TokenSet and the write of the token
    file fails, [getTokenFromCode] throws the error of the write, and the
    client already holds the granted TokenSet. The token file is as
    before when it could not be opened, and holds the text written so far
    (no JSON) when the write broke off. *)
Theorem failed_write_keeps_memory
    (code : string) (a : GoogleAuth) (w : World) (c : OAuth2Client)
    (tokens : TokenSet) (fault : WriteFault) :
  oauth2Client a = Some c ->
  token_endpoint w code = Granted tokens ->
  write_fault w tokenPath = Some fault ->
  exists w',
    getTokenFromCode code (a, w)
    = (Throw (Error (fault_message fault)),
       (mkGoogleAuth (Some (setCredentials tokens c)), w')) /\
    files w' !! tokenPath
    = match fault with
      | FailsAtOpen _ => files w !! tokenPath
      | FailsAfterTruncate written _ => Some (RawText written)
      end.
Proof.
  intros Hc Ht Hf.
  rewrite getTokenFromCode_run, Hc, Ht, writeFile_run. simpl. rewrite Hf.
  destruct fault as [msg | written msg]; eexists;
    (split; [reflexivity |]); simpl.
  - reflexivity.
  - apply lookup_insert_eq.
Qed.

Lemma failed_write_keeps_memory_witness :
  exists w',
    getTokenFromCode "valid-code" (configured_auth, unwritable_world)
    = (Throw (Error "EACCES: permission denied, open 'token.json'"),
       (mkGoogleAuth (Some (setCredentials sample_tokens sample_client)), w')) /\
    files w' !! tokenPath = None.
Proof.
  apply (failed_write_keeps_memory "valid-code" configured_auth unwritable_world
           sample_client sample_tokens
           (FailsAtOpen "EACCES: permission denied, open 'token.json'"));
    reflexivity.
Defined.

(** X8: a call of [getTokenFromCode] makes outbound calls only when a
    client exists, and then nothing but requests to exchange the given
    code: at least one, and as many more as the library re-sends. It
    attempts exactly one write, that of the token file, when the provider
    grants a TokenSet, and none otherwise. *)
Theorem exchange_effects (code : string) (a : GoogleAuth) (w : World) :
  let w' := snd (snd (getTokenFromCode code (a, w))) in
  (exists n,
     outbound_calls w'
     = (outbound_calls w ++ repeat (TokenRequest code) n)%list /\
     (n = 0 <-> oauth2Client a = None)) /\
  file_writes w'
  = (file_writes w ++
     match oauth2Client a, token_endpoint w code with
     | Some _, Granted _ => [WriteFile tokenPath]
     | _, _ => []
     end)%list.
Proof.
  cbv zeta. rewrite getTokenFromCode_run.
  destruct (oauth2Client a) as [c |]; cbn [snd].
  2:{ split; [exists 0; split; [| tauto] |]; cbn [repeat]; now rewrite app_nil_r. }
  assert (Hreq : forall w0 : World,
             outbound_calls w0 = outbound_calls (log_requests code w) ->
             exists n,
               outbound_calls w0
               = (outbound_calls w ++ repeat (TokenRequest code) n)%list /\
               (n = 0 <-> Some c = None)).
  { intros w0 ->. exists (S (token_retries w code)).
    split; [apply outbound_calls_log_request |].
    split; discriminate. }
  destruct (token_endpoint w code) as [tokens | msg]; cbn [snd].
  - rewrite writeFile_run.
    destruct (write_fault (log_requests code w) tokenPath)
      as [[msg | written msg] |]; cbn [snd]; split;
      try (apply Hreq; unfold outbound_calls, set_files, log_event; cbn [trace];
           rewrite List.filter_app; cbn [List.filter is_token_request];
           now rewrite app_nil_r);
      unfold file_writes, set_files, log_event, log_requests; cbn [trace];
      rewrite !List.filter_app, writes_of_requests; cbn [List.filter is_write];
      now rewrite app_nil_r.
  - split; [now apply Hreq |].
    rewrite file_writes_log_request. now rewrite app_nil_r.
Qed.

(** X9: whatever a call of [getTokenFromCode] does, it changes no file but
    the token file ([credentials.json] in particular is as before), and it
    leaves the environment variable alone. *)
Theorem exchange_touches_token_file_only
    (code : string) (a : GoogleAuth) (w : World) (path : string) :
  path <> tokenPath ->
  let w' := snd (snd (getTokenFromCode code (a, w))) in
  files w' !! path = files w !! path /\
  env_GOOGLE_CREDENTIALS w' = env_GOOGLE_CREDENTIALS w.
Proof.
  intros Hpath. simpl. rewrite getTokenFromCode_run.
  destruct (oauth2Client a) as [c |]; simpl; [| auto].
  destruct (token_endpoint w code) as [tokens | msg]; simpl; [| auto].
  rewrite writeFile_run. simpl.
  destruct (write_fault w tokenPath) as [[msg | written msg] |]; simpl;
    split; try reflexivity; now apply lookup_insert_ne.
Qed.

Lemma exchange_touches_token_file_only_witness :
  files (snd (snd (getTokenFromCode "valid-code" (configured_auth, sample_world))))
        !! credentialsPath
  = files sample_world !! credentialsPath.
Proof.
  apply (exchange_touches_token_file_only "valid-code" configured_auth sample_world
           credentialsPath).
  discriminate.
Defined.

(** X10: of two exchanges that return, one after the other, the second
    wins wholesale: the client's credentials and the token file are the
    second TokenSet, with nothing of the first merged in (a refresh token
    that only the first grant carried is gone). *)
Theorem second_exchange_overwrites
    (code1 code2 : string) (a a1 a2 : GoogleAuth) (w w1 w2 : World) :
  getTokenFromCode code1 (a, w) = (Ok tt, (a1, w1)) ->
  getTokenFromCode code2 (a1, w1) = (Ok tt, (a2, w2)) ->
  exists c tokens2,
    oauth2Client a = Some c /\
    token_endpoint w code2 = Granted tokens2 /\
    oauth2Client a2 = Some (setCredentials tokens2 c) /\
    files w2 !! tokenPath = Some (JSON_stringify tokens2).
Proof.
  intros H1 H2.
  rewrite getTokenFromCode_run in H1.
  destruct (oauth2Client a) as [c |]; [| discriminate H1].
  destruct (token_endpoint w code1) as [tokens1 | msg1]; [| discriminate H1].
  rewrite writeFile_run in H1. simpl in H1.
  destruct (write_fault w tokenPath) as [[msg | written msg] |] eqn:Hfault;
    try discriminate H1.
  injection H1 as <- <-.
  rewrite getTokenFromCode_run in H2. simpl in H2.
  destruct (token_endpoint w code2) as [tokens2 | msg2]; [| discriminate H2].
  rewrite writeFile_run in H2. simpl in H2. rewrite Hfault in H2.
  injection H2 as <- <-.
  exists c, tokens2. repeat split. simpl. apply lookup_insert_eq.
Qed.

(** An endpoint whose second grant carries no refresh token. *)
Lemma second_exchange_overwrites_witness :
  let second := mkTokenSet (Some "ya29.second") None None (Some "Bearer") None None in
  let w := mkWorld None (files sample_world)
             (fun code => if String.eqb code "first" then Granted sample_tokens
                          else Granted second)
             (fun _ => 0) (fun _ => None) [] in
  let s1 := snd (getTokenFromCode "first" (configured_auth, w)) in
  let s2 := snd (getTokenFromCode "again" s1) in
  exists c,
    oauth2Client (fst s2) = Some c /\
    credentials c = Some second /\
    refresh_token second = None /\
    files (snd s2) !! tokenPath = Some (JSON_stringify second).
Proof.
  intros second w s1 s2.
  destruct (second_exchange_overwrites "first" "again" configured_auth
              (fst s1) (fst s2) w (snd s1) (snd s2) eq_refl eq_refl)
    as (c & tokens2 & Hc & Ht & Ha2 & Hfile).
  injection Hc as <-. injection Ht as <-.
  exists (setCredentials second sample_client).
  split; [exact Ha2 |]. split; [reflexivity |].
  split; [reflexivity | exact Hfile].
Defined.

(** ** The dispatcher *)

Lemma with_auth_run {A} (c : M AuthSt A) (m : GoogleHomeMCP) (w : World) :
  with_auth c (m, w)
  = (fst (c (auth m, w)),
     (mkGoogleHomeMCP (fst (snd (c (auth m, w)))) (homegraph m),
      snd (snd (c (auth m, w))))).
Proof.
  unfold with_auth, zoom. simpl. destruct (c (auth m, w)) as [r [a' w']]. reflexivity.
Qed.

(** X11: [get_auth_url] looks at no argument and changes nothing. It
    answers [Already authenticated with Google.] when the manager is
    authenticated, the instruction followed by the authorization URL when
    a client exists without an access token,
    [Error: OAuth2 client not initialized] when no client exists, and the
    message of the TypeError when the client's credentials are [null]. *)
Theorem get_auth_url_answers (args : option Args) (s : McpSt) :
  callTool "get_auth_url" args s
  = (Ok (text_result
           match oauth2Client (auth (fst s)) with
           | None => "Error: OAuth2 client not initialized"
           | Some c =>
               match credentials c with
               | None =>
                   "Error: Cannot read properties of null (reading 'access_token')"
               | Some t =>
                   if truthy (access_token t)
                   then "Already authenticated with Google."
                   else "Please visit this URL to authorize the application:"
                        +:+ newline +:+
                        authorization_url (_clientId c) (redirectUri c)
               end
           end),
     s).
Proof.
  destruct s as [[[oc] hg] w].
  unfold callTool, try_catch, callTool_switch.
  change (String.eqb "get_auth_url" "get_auth_url") with true. cbv iota.
  unfold bind at 1, auth_isAuthenticated. unfold isAuthenticated.
  cbn [fst snd auth oauth2Client].
  destruct oc as [c |].
  - destruct (credentials c) as [t |]; [| reflexivity].
    destruct (truthy (access_token t)); cbn [negb].
    + reflexivity.
    + unfold bind. rewrite with_auth_run. cbn [auth homegraph].
      rewrite (getAuthUrl_some (mkGoogleAuth (Some c)) w c eq_refl). reflexivity.
  - cbn [negb]. unfold bind. rewrite with_auth_run. cbn [auth homegraph].
    rewrite (getAuthUrl_none (mkGoogleAuth None) w eq_refl). reflexivity.
Qed.

(** The branches of the switch. *)
Lemma switch_authenticate args :
  callTool_switch "authenticate" args
  = bind (of_zod (zobject_parse AuthenticateSchema args)) (fun parsed =>
    bind (with_auth (getTokenFromCode (fst parsed))) (fun _ =>
    bind make_homegraph (fun _ =>
    ret (text_result "Successfully authenticated with Google!")))).
Proof. reflexivity. Qed.

Lemma switch_execute_command args :
  callTool_switch "execute_command" args
  = bind require_authenticated (fun _ =>
    bind (of_zod (zobject_parse ExecuteCommandSchema args)) (fun parsed =>
    bind ensure_homegraph (fun _ =>
    ret (text_result ("Command " +:+ quoted (fst parsed) +:+
                      " would be executed on devices: " +:+
                      devices_or_all (fst (snd parsed))))))).
Proof. reflexivity. Qed.

Lemma switch_query_devices args :
  callTool_switch "query_devices" args
  = bind require_authenticated (fun _ =>
    bind (of_zod (zobject_parse QueryDevicesSchema args)) (fun parsed =>
    bind ensure_homegraph (fun _ =>
    ret (text_result ("Querying devices: " +:+ devices_or_all (fst parsed)))))).
Proof. reflexivity. Qed.

Lemma switch_get_device_states args :
  callTool_switch "get_device_states" args
  = bind require_authenticated (fun _ =>
    bind (of_zod (zobject_parse GetDeviceStatesSchema args)) (fun parsed =>
    bind ensure_homegraph (fun _ =>
    ret (text_result ("Getting states for devices: " +:+
                      join ", " (fst parsed)))))).
Proof. reflexivity. Qed.

Lemma switch_list_devices args :
  callTool_switch "list_devices" args
  = bind require_authenticated (fun _ =>
    bind ensure_homegraph (fun _ =>
    ret (text_result "Device listing would be implemented here"))).
Proof. reflexivity. Qed.

Lemma callTool_returns nm args s r s' :
  callTool_switch nm args s = (Ok r, s') -> callTool nm args s = (Ok r, s').
Proof. intros H. unfold callTool. now apply try_catch_ok. Qed.

Lemma of_zod_ok {S A} (r : ZRes A) (a : A) (s : S) :
  r = ZOk a -> of_zod r s = (Ok a, s).
Proof. now intros ->. Qed.

Lemma of_zod_fail {S A} (r : ZRes A) issues (s : S) :
  r = ZFail issues -> of_zod r s = (Throw (ZodError issues), s).
Proof. now intros ->. Qed.

Lemma parse_code_string (args : Args) code :
  args !! "code" = Some (JStr code) ->
  zobject_parse AuthenticateSchema (Some args) = ZOk (code, tt).
Proof. intros H. simpl. now rewrite H. Qed.

Lemma make_homegraph_some (s : McpSt) c :
  oauth2Client (auth (fst s)) = Some c ->
  make_homegraph s
  = (Ok tt, (mkGoogleHomeMCP (auth (fst s)) (Some (mkHomegraph "v1")), snd s)).
Proof.
  intros Hc. destruct s as [m w]. cbn [fst snd].
  unfold make_homegraph, getClient.
  assert (E : with_auth client_or_throw (m, w) = (Ok c, (m, w))).
  { rewrite with_auth_run, (client_or_throw_some _ _ _ Hc).
    destruct m. reflexivity. }
  now rewrite (bind_ok _ _ _ _ _ E).
Qed.

Lemma ensure_homegraph_some (s : McpSt) h :
  homegraph (fst s) = Some h -> ensure_homegraph s = (Ok tt, s).
Proof.
  intros Hh. unfold ensure_homegraph, bind, get. now rewrite Hh.
Qed.

Lemma list_devices_with_handle args (s : McpSt) h :
  isAuthenticated (auth (fst s)) = Ok true ->
  homegraph (fst s) = Some h ->
  callTool "list_devices" args s
  = (Ok (text_result "Device listing would be implemented here"), s).
Proof.
  intros Hauth Hh. apply callTool_returns. rewrite switch_list_devices.
  rewrite (bind_ok _ _ _ _ _ (require_authenticated_true _ Hauth)).
  now rewrite (bind_ok _ _ _ _ _ (ensure_homegraph_some _ _ Hh)).
Qed.

(** X12: [authenticate] with a code the provider grants, on a disk that
    takes the write: the answer is the confirmation, the client holds the
    granted TokenSet, the token file is overwritten with it, a HomeGraph
    handle is in place; and, the TokenSet carrying an access token, the
    guarded operations are open from then on: [list_devices] is answered
    with its stub text and changes nothing more. *)
Theorem authenticate_opens_session
    (args : Args) (s : McpSt) (c : OAuth2Client) (code : string) (tokens : TokenSet) :
  oauth2Client (auth (fst s)) = Some c ->
  args !! "code" = Some (JStr code) ->
  token_endpoint (snd s) code = Granted tokens ->
  write_fault (snd s) tokenPath = None ->
  exists s',
    callTool "authenticate" (Some args) s
    = (Ok (text_result "Successfully authenticated with Google!"), s') /\
    oauth2Client (auth (fst s')) = Some (setCredentials tokens c) /\
    homegraph (fst s') = Some (mkHomegraph "v1") /\
    files (snd s') = <[tokenPath := JSON_stringify tokens]> (files (snd s)) /\
    (truthy (access_token tokens) = true ->
     forall args',
       callTool "list_devices" args' s'
       = (Ok (text_result "Device listing would be implemented here"), s')).
Proof.
  intros Hc Hcode Ht Hw. destruct s as [m w]. cbn [fst snd] in *.
  assert (Hex : with_auth (getTokenFromCode code) (m, w)
                = (Ok tt,
                   (mkGoogleHomeMCP (mkGoogleAuth (Some (setCredentials tokens c)))
                                    (homegraph m),
                    set_files (<[tokenPath := JSON_stringify tokens]> (files w))
                      (log_event (WriteFile tokenPath)
                         (log_requests code w))))).
  { rewrite with_auth_run, getTokenFromCode_run, Hc, Ht, writeFile_run.
    cbn [write_fault log_requests]. rewrite Hw. reflexivity. }
  eexists. split.
  - apply callTool_returns. rewrite switch_authenticate.
    rewrite (bind_ok _ _ _ _ _ (of_zod_ok _ _ _ (parse_code_string _ _ Hcode))).
    cbn [fst]. rewrite (bind_ok _ _ _ _ _ Hex).
    match goal with
    | |- bind make_homegraph _ ?st = _ =>
        rewrite (bind_ok _ _ st _ _
                   (make_homegraph_some st (setCredentials tokens c) eq_refl))
    end.
    reflexivity.
  - cbn [fst snd auth homegraph oauth2Client]. repeat split.
    intros Htok args'.
    apply (list_devices_with_handle args' _ (mkHomegraph "v1")); [| reflexivity].
    cbn [fst auth]. unfold isAuthenticated. cbn [oauth2Client].
    unfold setCredentials. cbn [credentials as_tokens].
    now rewrite Htok.
Qed.

Lemma authenticate_opens_session_witness :
  let s : McpSt := (mkGoogleHomeMCP configured_auth None, sample_world) in
  exists s',
    callTool "authenticate" (Some {[ "code" := JStr "valid-code" ]}) s
    = (Ok (text_result "Successfully authenticated with Google!"), s') /\
    callTool "list_devices" None s'
    = (Ok (text_result "Device listing would be implemented here"), s').
Proof.
  intros s.
  destruct (authenticate_opens_session {[ "code" := JStr "valid-code" ]} s
              sample_client "valid-code" sample_tokens)
    as (s' & Hcall & _ & _ & _ & Hopen); [reflexivity .. |].
  exists s'. split; [exact Hcall | apply Hopen; reflexivity].
Defined.

(** X13: [authenticate] with a well-formed code that cannot be exchanged.
    Without a client the answer is [Error: OAuth2 client not initialized]
    and nothing has happened, no outbound call in particular. When the
    provider refuses the code the answer is [Error: ] followed by the
    provider's message; the dispatcher is as before (no HomeGraph handle is
    made), no file is changed and no write attempted, and the trace has
    only gained requests to exchange that code (at least one; the library
    may send it again). *)
Theorem authenticate_failure_enveloped (args : Args) (s : McpSt) (code : string) :
  args !! "code" = Some (JStr code) ->
  (oauth2Client (auth (fst s)) = None ->
   callTool "authenticate" (Some args) s
   = (Ok (text_result "Error: OAuth2 client not initialized"), s)) /\
  (forall c msg,
     oauth2Client (auth (fst s)) = Some c ->
     token_endpoint (snd s) code = Refused msg ->
     exists w' n,
       callTool "authenticate" (Some args) s
       = (Ok (text_result ("Error: " +:+ msg)), (fst s, w')) /\
       files w' = files (snd s) /\
       file_writes w' = file_writes (snd s) /\
       outbound_calls w'
       = (outbound_calls (snd s) ++ repeat (TokenRequest code) (S n))%list).
Proof.
  intros Hcode. destruct s as [m w]. cbn [fst snd] in *.
  split.
  - intros Hc.
    apply (callTool_envelopes _ _ _ not_initialized).
    rewrite switch_authenticate.
    rewrite (bind_ok _ _ _ _ _ (of_zod_ok _ _ _ (parse_code_string _ _ Hcode))).
    apply bind_throw. cbn [fst].
    rewrite with_auth_run, getTokenFromCode_run, Hc. destruct m. reflexivity.
  - intros c msg Hc Ht.
    exists (log_requests code w), (token_retries w code).
    split; [| split; [reflexivity |
              split; [apply file_writes_log_request
                     | apply outbound_calls_log_request]]].
    apply (callTool_envelopes _ _ _ (Error msg)).
    rewrite switch_authenticate.
    rewrite (bind_ok _ _ _ _ _ (of_zod_ok _ _ _ (parse_code_string _ _ Hcode))).
    apply bind_throw. cbn [fst].
    rewrite with_auth_run, getTokenFromCode_run, Hc, Ht. destruct m. reflexivity.
Qed.

Lemma authenticate_failure_enveloped_witness :
  let s : McpSt := (mkGoogleHomeMCP configured_auth None, sample_world) in
  let s5 : McpSt := (mkGoogleHomeMCP configured_auth None, unavailable_world) in
  (exists w' n,
     callTool "authenticate" (Some {[ "code" := JStr "stale" ]}) s
     = (Ok (text_result "Error: invalid_grant"), (fst s, w')) /\
     files w' = files (snd s) /\
     file_writes w' = file_writes (snd s) /\
     outbound_calls w'
     = (outbound_calls (snd s) ++ repeat (TokenRequest "stale") (S n))%list) /\
  (exists w' n,
     callTool "authenticate" (Some {[ "code" := JStr "valid-code" ]}) s5
     = (Ok (text_result "Error: Service Unavailable"), (fst s5, w')) /\
     files w' = files (snd s5) /\
     file_writes w' = file_writes (snd s5) /\
     outbound_calls w'
     = (outbound_calls (snd s5) ++ repeat (TokenRequest "valid-code") (S n))%list).
Proof.
  intros s s5.
  assert (Hstale : ({[ "code" := JStr "stale" ]} : Args) !! "code"
                   = Some (JStr "stale")) by reflexivity.
  assert (Hvalid : ({[ "code" := JStr "valid-code" ]} : Args) !! "code"
                   = Some (JStr "valid-code")) by reflexivity.
  split.
  - apply (proj2 (authenticate_failure_enveloped {[ "code" := JStr "stale" ]} s
                    "stale" Hstale)
             sample_client "invalid_grant");
      reflexivity.
  - apply (proj2 (authenticate_failure_enveloped {[ "code" := JStr "valid-code" ]} s5
                    "valid-code" Hvalid)
             sample_client "Service Unavailable");
      reflexivity.
Defined.

(** X14: [authenticate] with a [code] that is not a string (a number, a
    boolean, [null], an array, an object) is answered with the validation
    failure [Expected string, received <type>] at the path [code], and
    nothing has happened: the code is not sent to the provider. *)
Theorem authenticate_rejects_non_string_code (args : Args) (s : McpSt) (v : JValue) :
  args !! "code" = Some v ->
  (forall str, v <> JStr str) ->
  callTool "authenticate" (Some args) s
  = (Ok (text_result
           ("Error: " +:+
            zodError_message [mkIssue PTstring (getParsedType (Some v)) [PKey "code"]])),
     s) /\
  issue_message (mkIssue PTstring (getParsedType (Some v)) [PKey "code"])
  = "Expected string, received " +:+ parsedType_name (getParsedType (Some v)).
Proof.
  intros Hcode Hv.
  assert (Hparse : zobject_parse AuthenticateSchema (Some args)
                   = ZFail [mkIssue PTstring (getParsedType (Some v)) [PKey "code"]]).
  { simpl. rewrite Hcode.
    destruct v as [| b | n | str | items | fields]; try reflexivity.
    exfalso. now apply (Hv str). }
  split.
  - apply (callTool_envelopes _ _ _ (ZodError _)).
    rewrite switch_authenticate. apply bind_throw.
    now apply of_zod_fail.
  - destruct v as [| b | n | str | items | fields]; reflexivity.
Qed.

Lemma authenticate_rejects_non_string_code_witness :
  let s : McpSt := (mkGoogleHomeMCP configured_auth None, sample_world) in
  callTool "authenticate" (Some {[ "code" := JNum 42 ]}) s
  = (Ok (text_result
           ("Error: " +:+
            zodError_message [mkIssue PTstring PTnumber [PKey "code"]])), s) /\
  issue_message (mkIssue PTstring PTnumber [PKey "code"])
  = "Expected string, received number".
Proof.
  intros s.
  apply (authenticate_rejects_non_string_code {[ "code" := JNum 42 ]} s (JNum 42)).
  - reflexivity.
  - discriminate.
Defined.

(** X15: any validation failure, be it a missing key, a value of the wrong
    type, a non-string element of an array or no arguments at all, is
    answered with the message of the [ZodError] and changes nothing: for
    [authenticate] whatever the session is, for the guarded operations
    once their gate is passed. No HomeGraph handle is made and nothing is
    sent or written. *)
Theorem invalid_arguments_change_nothing (args : option Args) (s : McpSt) :
  (forall issues,
     zobject_parse AuthenticateSchema args = ZFail issues ->
     callTool "authenticate" args s
     = (Ok (text_result ("Error: " +:+ zodError_message issues)), s)) /\
  (isAuthenticated (auth (fst s)) = Ok true ->
   (forall issues,
      zobject_parse ExecuteCommandSchema args = ZFail issues ->
      callTool "execute_command" args s
      = (Ok (text_result ("Error: " +:+ zodError_message issues)), s)) /\
   (forall issues,
      zobject_parse QueryDevicesSchema args = ZFail issues ->
      callTool "query_devices" args s
      = (Ok (text_result ("Error: " +:+ zodError_message issues)), s)) /\
   (forall issues,
      zobject_parse GetDeviceStatesSchema args = ZFail issues ->
      callTool "get_device_states" args s
      = (Ok (text_result ("Error: " +:+ zodError_message issues)), s))).
Proof.
  split.
  - intros issues H.
    apply (callTool_envelopes _ _ _ (ZodError issues)).
    rewrite switch_authenticate. apply bind_throw. now apply of_zod_fail.
  - intros Hauth.
    repeat split; intros issues H;
      apply (callTool_envelopes _ _ _ (ZodError issues));
      [rewrite switch_execute_command
      | rewrite switch_query_devices
      | rewrite switch_get_device_states];
      rewrite (bind_ok _ _ _ _ _ (require_authenticated_true _ Hauth));
      apply bind_throw; now apply of_zod_fail.
Qed.

(** A device list with a number in it, sent with a session. *)
Lemma invalid_arguments_change_nothing_witness :
  let s : McpSt :=
    (mkGoogleHomeMCP (mkGoogleAuth (Some (setCredentials sample_tokens sample_client)))
                     None, sample_world) in
  callTool "query_devices"
           (Some {[ "devices" := JArr [JStr "lamp"; JNum 7] ]}) s
  = (Ok (text_result
           ("Error: " +:+
            zodError_message
              [mkIssue PTstring PTnumber [PKey "devices"; PIndex 1]])), s).
Proof.
  intros s.
  apply (proj2 (invalid_arguments_change_nothing
                  (Some {[ "devices" := JArr [JStr "lamp"; JNum 7] ]}) s));
    reflexivity.
Defined.

(** An array of strings parses to those strings. *)
Lemma parse_items_strings path i ids :
  parse_items (zparse ZString) path i (map JStr ids) = ZOk ids.
Proof.
  revert i. induction ids as [| id ids IH]; intros i; simpl.
  - reflexivity.
  - now rewrite IH.
Qed.

Lemma parse_items_cons {A} (p : list PathElem -> option JValue -> ZRes A)
    path i v rest :
  parse_items p path i (v :: rest)
  = match zboth (p (path ++ [PIndex i])%list (Some v)) (parse_items p path (S i) rest) with
    | ZOk (a, l) => ZOk (a :: l)
    | ZFail iss => ZFail iss
    end.
Proof. reflexivity. Qed.

(** Only an array of strings parses, and to nothing but its strings. *)
Lemma parse_items_inv path i items ids :
  parse_items (zparse ZString) path i items = ZOk ids -> items = map JStr ids.
Proof.
  revert i ids. induction items as [| v items IH]; intros i ids H.
  - injection H as <-. reflexivity.
  - rewrite parse_items_cons in H.
    destruct (parse_items (zparse ZString) path (S i) items) as [l | iss] eqn:E.
    + destruct v as [| b | n | str | vs | fs]; try discriminate H.
      injection H as <-. simpl. f_equal. now apply (IH (S i)).
    + destruct v as [| b | n | str | vs | fs]; discriminate H.
Qed.

Lemma parse_deviceIds (args : Args) ids :
  args !! "deviceIds" = Some (JArr (map JStr ids)) ->
  zobject_parse GetDeviceStatesSchema (Some args) = ZOk (ids, tt).
Proof.
  intros H. simpl. rewrite H. now rewrite parse_items_strings.
Qed.

Lemma parse_deviceIds_unfold (args : Args) :
  zobject_parse GetDeviceStatesSchema (Some args)
  = zboth match args !! "deviceIds" with
          | Some (JArr items) =>
              parse_items (zparse ZString) [PKey "deviceIds"] 0 items
          | _ => ZFail [invalid_type PTarray (args !! "deviceIds") [PKey "deviceIds"]]
          end
          (ZOk tt).
Proof. reflexivity. Qed.

Lemma parse_deviceIds_inv (args : Args) ids :
  zobject_parse GetDeviceStatesSchema (Some args) = ZOk (ids, tt) ->
  args !! "deviceIds" = Some (JArr (map JStr ids)).
Proof.
  rewrite parse_deviceIds_unfold.
  destruct (args !! "deviceIds") as [[| b | n | str | items | fields] |];
    try discriminate.
  destruct (parse_items (zparse ZString) [PKey "deviceIds"] 0 items)
    as [l | iss] eqn:Hitems; [| discriminate].
  intros H. injection H as ->. now rewrite (parse_items_inv _ _ _ _ Hitems).
Qed.

(** X16: with a session, [get_device_states] on an array of strings
    answers [Getting states for devices: ] followed by the ids joined with
    a comma and a space. There is no fallback here: for the empty array
    the text ends after the colon and names no device. *)
Theorem get_device_states_names_ids (args : Args) (s : McpSt) (ids : list string) :
  isAuthenticated (auth (fst s)) = Ok true ->
  args !! "deviceIds" = Some (JArr (map JStr ids)) ->
  fst (callTool "get_device_states" (Some args) s)
  = Ok (text_result ("Getting states for devices: " +:+ join ", " ids)).
Proof.
  intros Hauth Hids.
  destruct (ensure_homegraph_ok s Hauth) as [s' Hs'].
  unfold callTool. rewrite switch_get_device_states.
  erewrite try_catch_ok; [reflexivity |].
  rewrite (bind_ok _ _ _ _ _ (require_authenticated_true _ Hauth)).
  rewrite (bind_ok _ _ _ _ _ (of_zod_ok _ _ _ (parse_deviceIds _ _ Hids))).
  rewrite (bind_ok _ _ _ _ _ Hs'). reflexivity.
Qed.

Lemma get_device_states_names_ids_witness :
  let s : McpSt :=
    (mkGoogleHomeMCP (mkGoogleAuth (Some (setCredentials sample_tokens sample_client)))
                     None, sample_world) in
  fst (callTool "get_device_states" (Some {[ "deviceIds" := JArr [] ]}) s)
  = Ok (text_result "Getting states for devices: ") /\
  fst (callTool "get_device_states"
         (Some {[ "deviceIds" := JArr [JStr "lamp"; JStr "tv"] ]}) s)
  = Ok (text_result "Getting states for devices: lamp, tv").
Proof.
  intros s. split.
  - apply (get_device_states_names_ids {[ "deviceIds" := JArr [] ]} s []);
      reflexivity.
  - apply (get_device_states_names_ids
             {[ "deviceIds" := JArr [JStr "lamp"; JStr "tv"] ]} s ["lamp"; "tv"]);
      reflexivity.
Defined.

(** X17: conversely, when [get_device_states] answers with its
    [Getting states for devices: ] text, the [deviceIds] argument was an
    array of strings and the text lists exactly those strings. *)
Theorem get_device_states_only_strings (args : Args) (s : McpSt) (listed : string) :
  fst (callTool "get_device_states" (Some args) s)
  = Ok (text_result ("Getting states for devices: " +:+ listed)) ->
  exists ids,
    args !! "deviceIds" = Some (JArr (map JStr ids)) /\
    listed = join ", " ids /\
    isAuthenticated (auth (fst s)) = Ok true.
Proof.
  intros H.
  destruct (isAuthenticated (auth (fst s))) as [[|] | e] eqn:Hauth.
  2:{ rewrite (callTool_envelopes _ _ _ _ _
                 (auth_gate_throws "get_device_states" (Some args) s
                    ltac:(simpl; tauto) Hauth)) in H.
      cbv in H. discriminate H. }
  2:{ rewrite (callTool_envelopes _ _ _ _ _
                 (auth_gate_rethrows "get_device_states" (Some args) s e
                    ltac:(simpl; tauto) Hauth)) in H.
      rewrite (isAuthenticated_throws _ _ Hauth) in H.
      cbv in H. discriminate H. }
  destruct (zobject_parse GetDeviceStatesSchema (Some args)) as [[ids []] | issues] eqn:Hp.
  - destruct (ensure_homegraph_ok s Hauth) as [s' Hs'].
    assert (E : callTool "get_device_states" (Some args) s
                = (Ok (text_result ("Getting states for devices: " +:+ join ", " ids)),
                   s')).
    { apply callTool_returns. rewrite switch_get_device_states.
      rewrite (bind_ok _ _ _ _ _ (require_authenticated_true _ Hauth)).
      rewrite (bind_ok _ _ _ _ _ (of_zod_ok _ _ _ Hp)).
      now rewrite (bind_ok _ _ _ _ _ Hs'). }
    rewrite E in H. cbn [fst] in H. injection H as H.
    change (join ", " ids = listed) in H.
    exists ids. split; [| split; [now symmetry | reflexivity]].
    now apply parse_deviceIds_inv.
  - assert (E : callTool "get_device_states" (Some args) s
                = (Ok (text_result ("Error: " +:+ zodError_message issues)), s)).
    { apply (callTool_envelopes _ _ _ (ZodError issues)).
      rewrite switch_get_device_states.
      rewrite (bind_ok _ _ _ _ _ (require_authenticated_true _ Hauth)).
      apply bind_throw. now apply of_zod_fail. }
    rewrite E in H. cbn [fst] in H. injection H as H.
    cbv in H. discriminate H.
Qed.

Lemma get_device_states_only_strings_witness :
  let s : McpSt :=
    (mkGoogleHomeMCP (mkGoogleAuth (Some (setCredentials sample_tokens sample_client)))
                     None, sample_world) in
  exists ids,
    ({[ "deviceIds" := JArr [JStr "lamp"] ]} : Args) !! "deviceIds"
    = Some (JArr (map JStr ids)) /\
    "lamp" = join ", " ids /\
    isAuthenticated (auth (fst s)) = Ok true.
Proof.
  intros s.
  apply (get_device_states_only_strings {[ "deviceIds" := JArr [JStr "lamp"] ]} s "lamp").
  reflexivity.
Defined.

Lemma ensure_homegraph_run (s : McpSt) c :
  oauth2Client (auth (fst s)) = Some c ->
  ensure_homegraph s
  = (Ok tt,
     (mkGoogleHomeMCP (auth (fst s))
                      (Some (default (mkHomegraph "v1") (homegraph (fst s)))),
      snd s)).
Proof.
  intros Hc. destruct s as [[au hg] w]. cbn [fst snd auth homegraph] in *.
  destruct hg as [h |].
  - now rewrite (ensure_homegraph_some (mkGoogleHomeMCP au (Some h), w) h eq_refl).
  - unfold ensure_homegraph, bind at 1, get. cbn [fst homegraph].
    now rewrite (make_homegraph_some (mkGoogleHomeMCP au None, w) c Hc).
Qed.

(** X18: with a session, [list_devices] looks at no argument and answers
    with its stub text. It leaves the manager and the world as they are;
    the only change is the HomeGraph handle, made on the first guarded
    call and kept from then on, so that a second call changes nothing. *)
Theorem list_devices_stub (args : option Args) (s : McpSt) :
  isAuthenticated (auth (fst s)) = Ok true ->
  exists s',
    callTool "list_devices" args s
    = (Ok (text_result "Device listing would be implemented here"), s') /\
    auth (fst s') = auth (fst s) /\
    snd s' = snd s /\
    homegraph (fst s') = Some (default (mkHomegraph "v1") (homegraph (fst s))) /\
    forall args',
      callTool "list_devices" args' s'
      = (Ok (text_result "Device listing would be implemented here"), s').
Proof.
  intros Hauth. destruct (isAuthenticated_client _ Hauth) as [c Hc].
  eexists. split.
  - apply callTool_returns. rewrite switch_list_devices.
    rewrite (bind_ok _ _ _ _ _ (require_authenticated_true _ Hauth)).
    rewrite (bind_ok _ _ _ _ _ (ensure_homegraph_run _ _ Hc)). reflexivity.
  - cbn [fst snd auth homegraph]. repeat split.
    intros args'.
    now apply (list_devices_with_handle args' _
                 (default (mkHomegraph "v1") (homegraph (fst s)))).
Qed.

Lemma list_devices_stub_witness :
  let s : McpSt :=
    (mkGoogleHomeMCP (mkGoogleAuth (Some (setCredentials sample_tokens sample_client)))
                     None, sample_world) in
  exists s',
    callTool "list_devices" (Some {[ "anything" := JNull ]}) s
    = (Ok (text_result "Device listing would be implemented here"), s') /\
    homegraph (fst s') = Some (mkHomegraph "v1").
Proof.
  intros s.
  destruct (list_devices_stub (Some {[ "anything" := JNull ]}) s eq_refl)
    as (s' & Hcall & _ & _ & Hh & _).
  exists s'. split; [exact Hcall | exact Hh].
Defined.

(** A list joined with a comma and a space is empty only for no id at all
    and for the one empty id. *)
Lemma join_truthy ids :
  ids <> [] -> ids <> [""] -> truthy_string (join ", " ids) = true.
Proof.
  intros Hnil Hone.
  destruct ids as [| x [| y rest]].
  - contradiction.
  - simpl. destruct x; [contradiction | reflexivity].
  - change (join ", " (x :: y :: rest))
      with (x +:+ ", " +:+ join ", " (y :: rest)).
    destruct x; reflexivity.
Qed.

Lemma parse_command_devices (args : Args) command ids :
  args !! "command" = Some (JStr command) ->
  args !! "devices" = Some (JArr (map JStr ids)) ->
  zobject_parse ExecuteCommandSchema (Some args) = ZOk (command, (Some ids, tt)).
Proof.
  intros Hc Hd. simpl. rewrite Hc, Hd. now rewrite parse_items_strings.
Qed.

Lemma parse_devices (args : Args) ids :
  args !! "devices" = Some (JArr (map JStr ids)) ->
  zobject_parse QueryDevicesSchema (Some args) = ZOk (Some ids, tt).
Proof.
  intros Hd. simpl. rewrite Hd. now rewrite parse_items_strings.
Qed.

Lemma devices_or_all_named ids :
  ids <> [] -> ids <> [""] -> devices_or_all (Some ids) = join ", " ids.
Proof.
  intros Hnil Hone. unfold devices_or_all, or_default. simpl.
  now rewrite (join_truthy ids Hnil Hone).
Qed.

(** X19: with a session, [execute_command] and [query_devices] on a
    [devices] array of strings that is neither empty nor the one empty id
    name exactly those devices, joined with a comma and a space. *)
Theorem named_devices_are_listed
    (args : Args) (s : McpSt) (ids : list string) :
  isAuthenticated (auth (fst s)) = Ok true ->
  args !! "devices" = Some (JArr (map JStr ids)) ->
  ids <> [] -> ids <> [""] ->
  (forall command, args !! "command" = Some (JStr command) ->
     fst (callTool "execute_command" (Some args) s)
     = Ok (text_result ("Command " +:+ quoted command +:+
                        " would be executed on devices: " +:+ join ", " ids))) /\
  fst (callTool "query_devices" (Some args) s)
  = Ok (text_result ("Querying devices: " +:+ join ", " ids)).
Proof.
  intros Hauth Hdev Hnil Hone.
  destruct (ensure_homegraph_ok s Hauth) as [s' Hs'].
  split.
  - intros command Hcmd.
    unfold callTool. rewrite switch_execute_command.
    erewrite try_catch_ok; [reflexivity |].
    rewrite (bind_ok _ _ _ _ _ (require_authenticated_true _ Hauth)).
    rewrite (bind_ok _ _ _ _ _
               (of_zod_ok _ _ _ (parse_command_devices _ _ _ Hcmd Hdev))).
    rewrite (bind_ok _ _ _ _ _ Hs'). cbn [fst snd].
    now rewrite (devices_or_all_named ids Hnil Hone).
  - unfold callTool. rewrite switch_query_devices.
    erewrite try_catch_ok; [reflexivity |].
    rewrite (bind_ok _ _ _ _ _ (require_authenticated_true _ Hauth)).
    rewrite (bind_ok _ _ _ _ _ (of_zod_ok _ _ _ (parse_devices _ _ Hdev))).
    rewrite (bind_ok _ _ _ _ _ Hs'). cbn [fst snd].
    now rewrite (devices_or_all_named ids Hnil Hone).
Qed.

Lemma named_devices_are_listed_witness :
  let s : McpSt :=
    (mkGoogleHomeMCP (mkGoogleAuth (Some (setCredentials sample_tokens sample_client)))
                     None, sample_world) in
  fst (callTool "query_devices"
         (Some {[ "devices" := JArr [JStr "lamp"; JStr "tv"] ]}) s)
  = Ok (text_result "Querying devices: lamp, tv").
Proof.
  intros s.
  apply (proj2 (named_devices_are_listed
                  {[ "devices" := JArr [JStr "lamp"; JStr "tv"] ]} s ["lamp"; "tv"]
                  ltac:(reflexivity) ltac:(reflexivity)
                  ltac:(discriminate) ltac:(discriminate))).
Defined.

(** A key the schema does not look at plays no part in the parse. *)
Lemma zparse_fields_insert {A} (sh : ZShape A) (o : Args) k v :
  ~ In k (shape_keys sh) ->
  zparse_fields sh (<[k := v]> o) = zparse_fields sh o.
Proof.
  induction sh as [| A B key t rest IH]; intros Hk; simpl.
  - reflexivity.
  - simpl in Hk.
    rewrite lookup_insert_ne by (intros ->; apply Hk; now left).
    rewrite IH by (intros Hin; apply Hk; now right).
    reflexivity.
Qed.

(** X20: keys that no schema of the handler names are stripped: adding
    such a key to the arguments, with any value, changes neither the
    result nor the state of any call, whatever the operation. *)
Theorem unknown_keys_ignored
    (nm : string) (args : Args) (k : string) (v : JValue) (s : McpSt) :
  ~ In k schema_keys ->
  callTool nm (Some (<[k := v]> args)) s = callTool nm (Some args) s.
Proof.
  intros Hk.
  assert (Hswitch : callTool_switch nm (Some (<[k := v]> args))
                    = callTool_switch nm (Some args)).
  { unfold callTool_switch, zobject_parse.
    rewrite !zparse_fields_insert; [reflexivity | ..];
      intros Hin; apply Hk; simpl in Hin |- *; tauto. }
  unfold callTool. now rewrite Hswitch.
Qed.

Lemma unknown_keys_ignored_witness :
  let s : McpSt :=
    (mkGoogleHomeMCP (mkGoogleAuth (Some (setCredentials sample_tokens sample_client)))
                     None, sample_world) in
  callTool "execute_command"
           (Some (<["room" := JStr "kitchen"]> {[ "command" := JStr "dim" ]})) s
  = callTool "execute_command" (Some {[ "command" := JStr "dim" ]}) s.
Proof.
  intros s.
  apply (unknown_keys_ignored "execute_command" {[ "command" := JStr "dim" ]}
           "room" (JStr "kitchen") s).
  simpl. intros [H | [H | [H | [H | []]]]]; discriminate H.
Defined.

(** *** What only [authenticate] can change *)

Lemma same_session_refl s : same_session s s.
Proof. split; reflexivity. Qed.

Lemma same_session_trans s1 s2 s3 :
  same_session s1 s2 -> same_session s2 s3 -> same_session s1 s3.
Proof.
  intros [Ha1 Hw1] [Ha2 Hw2]. split; congruence.
Qed.

Lemma keeps_ret {A} (a : A) : keeps_session (ret a).
Proof. intros s. apply same_session_refl. Qed.

Lemma keeps_throw {A} e : keeps_session (@throw McpSt A e).
Proof. intros s. apply same_session_refl. Qed.

Lemma keeps_get : keeps_session (@get McpSt).
Proof. intros s. apply same_session_refl. Qed.

Lemma keeps_auth_isAuthenticated : keeps_session auth_isAuthenticated.
Proof. intros s. apply same_session_refl. Qed.

Lemma keeps_of_zod {A} (r : ZRes A) : keeps_session (of_zod r).
Proof. destruct r; [apply keeps_ret | apply keeps_throw]. Qed.

Lemma keeps_bind {A B} (c : M McpSt A) (k : A -> M McpSt B) :
  keeps_session c -> (forall a, keeps_session (k a)) -> keeps_session (bind c k).
Proof.
  intros Hc Hk s. unfold bind. specialize (Hc s).
  destruct (c s) as [[a | e] s1]; simpl in Hc.
  - apply (same_session_trans _ _ _ Hc). apply Hk.
  - exact Hc.
Qed.

Lemma keeps_try_catch {A} (c : M McpSt A) (h : Exn -> M McpSt A) :
  keeps_session c -> (forall e, keeps_session (h e)) -> keeps_session (try_catch c h).
Proof.
  intros Hc Hh s. unfold try_catch. specialize (Hc s).
  destruct (c s) as [[a | e] s1]; simpl in Hc.
  - exact Hc.
  - apply (same_session_trans _ _ _ Hc). apply Hh.
Qed.

(** A method of the manager that changes neither the manager nor the
    world, called from the dispatcher. *)
Lemma keeps_with_auth {A} (c : M AuthSt A) :
  (forall st, snd (c st) = st) -> keeps_session (with_auth c).
Proof.
  intros Hc [m w]. rewrite with_auth_run. rewrite Hc.
  split; reflexivity.
Qed.

Lemma client_or_throw_state st : snd (client_or_throw st) = st.
Proof.
  destruct st as [a w]. destruct (oauth2Client a) as [c |] eqn:Hc.
  - now rewrite (client_or_throw_some _ _ _ Hc).
  - now rewrite (client_or_throw_none _ _ Hc).
Qed.

Lemma getAuthUrl_state st : snd (getAuthUrl st) = st.
Proof.
  destruct st as [a w]. destruct (oauth2Client a) as [c |] eqn:Hc.
  - now rewrite (getAuthUrl_some _ _ _ Hc).
  - now rewrite (getAuthUrl_none _ _ Hc).
Qed.

Lemma keeps_require_authenticated : keeps_session require_authenticated.
Proof.
  unfold require_authenticated.
  apply keeps_bind; [apply keeps_auth_isAuthenticated |].
  intros s. destruct (negb _); [apply keeps_throw | apply keeps_ret].
Qed.

Lemma keeps_make_homegraph : keeps_session make_homegraph.
Proof.
  unfold make_homegraph. apply keeps_bind.
  - apply keeps_with_auth. exact client_or_throw_state.
  - intros _ s. split; reflexivity.
Qed.

Lemma keeps_ensure_homegraph : keeps_session ensure_homegraph.
Proof.
  unfold ensure_homegraph. apply keeps_bind; [apply keeps_get |].
  intros s. destruct (homegraph (fst s)); [apply keeps_ret | apply keeps_make_homegraph].
Qed.

Create HintDb keeps.

#[local] Hint Resolve keeps_ret keeps_throw keeps_get keeps_of_zod
  keeps_require_authenticated keeps_make_homegraph keeps_ensure_homegraph
  : keeps.

(** X21: no operation but [authenticate] touches the manager or the world:
    whatever the name (a guarded operation, [get_auth_url], a name that is
    not in the catalog), whatever the arguments and however the call ends,
    the client and its tokens, every file and the trace of outbound calls
    and writes are as before; only the HomeGraph handle may have been
    made. *)
Theorem only_authenticate_changes_session
    (nm : string) (args : option Args) (s : McpSt) :
  nm <> "authenticate" ->
  auth (fst (snd (callTool nm args s))) = auth (fst s) /\
  snd (snd (callTool nm args s)) = snd s.
Proof.
  intros Hnm.
  assert (K : keeps_session (callTool nm args)); [| exact (K s)].
  unfold callTool. apply keeps_try_catch; [| intros e; apply keeps_ret].
  unfold callTool_switch.
  destruct (String.eqb nm "get_auth_url").
  { apply keeps_bind; [apply keeps_auth_isAuthenticated |]. intros s0.
    destruct (negb _); [| apply keeps_ret].
    apply keeps_bind; [| intros u; apply keeps_ret].
    apply keeps_with_auth. exact getAuthUrl_state. }
  destruct (String.eqb_spec nm "authenticate") as [E | _]; [contradiction |].
  repeat match goal with
         | |- keeps_session (if ?b then _ else _) => destruct b
         | |- keeps_session (bind _ _) => apply keeps_bind; [auto with keeps | intros ?]
         | |- keeps_session _ => solve [auto with keeps]
         end.
Qed.

Lemma only_authenticate_changes_session_witness :
  let s : McpSt :=
    (mkGoogleHomeMCP (mkGoogleAuth (Some (setCredentials sample_tokens sample_client)))
                     None, sample_world) in
  auth (fst (snd (callTool "execute_command"
                    (Some {[ "command" := JStr "dim" ]}) s))) = auth (fst s) /\
  snd (snd (callTool "execute_command" (Some {[ "command" := JStr "dim" ]}) s))
  = snd s.
Proof.
  intros s.
  apply (only_authenticate_changes_session "execute_command"
           (Some {[ "command" := JStr "dim" ]}) s).
  discriminate.
Defined.

(** ** [start] *)

Lemma get_auth_url_authenticated args (s : McpSt) :
  isAuthenticated (auth (fst s)) = Ok true ->
  callTool "get_auth_url" args s
  = (Ok (text_result "Already authenticated with Google."), s).
Proof.
  intros Hauth. apply callTool_returns.
  unfold callTool_switch.
  change (String.eqb "get_auth_url" "get_auth_url") with true. cbv iota.
  unfold bind, auth_isAuthenticated. now rewrite Hauth.
Qed.

(** X22: the restart, end to end. After [start] in a world that offers a
    credential and whose token file holds a TokenSet with an access
    token, the guarded operations are open without any [authenticate]:
    [list_devices] answers with its stub text and [get_auth_url] with
    [Already authenticated with Google.]; [start] itself never throws
    and makes no outbound call. *)
Theorem start_restores_session
    (w : World) (cr : Credentials) (t : TokenSet) (args : option Args) :
  credential_source w = Some cr ->
  files w !! tokenPath = Some (JSON_stringify t) ->
  truthy (access_token t) = true ->
  exists s',
    start (new_GoogleHomeMCP, w) = (Ok tt, s') /\
    outbound_calls (snd s') = outbound_calls w /\
    fst (callTool "list_devices" args s')
    = Ok (text_result "Device listing would be implemented here") /\
    callTool "get_auth_url" args s'
    = (Ok (text_result "Already authenticated with Google."), s').
Proof.
  intros Hsrc Htok Ht.
  set (c := setCredentials t (new_OAuth2Client (client_id cr) (client_secret cr)
                                               (head (redirect_uris cr)))).
  set (s' := (mkGoogleHomeMCP (mkGoogleAuth (Some c)) None, after_initialize w) : McpSt).
  assert (Hstart : start (new_GoogleHomeMCP, w) = (Ok tt, s')).
  { unfold start. apply try_catch_ok.
    rewrite with_auth_run, initialize_run. cbn [fst snd auth homegraph new_GoogleHomeMCP].
    unfold initialized, initialized_client. rewrite Hsrc, Htok. reflexivity. }
  assert (Hauth : isAuthenticated (auth (fst s')) = Ok true).
  { unfold s', c, isAuthenticated, setCredentials.
    cbn [fst auth oauth2Client credentials as_tokens]. now rewrite Ht. }
  exists s'. split; [exact Hstart |].
  split; [apply after_initialize_outbound |].
  split.
  - destruct (ensure_homegraph_ok s' Hauth) as [s'' Hs''].
    unfold callTool. rewrite switch_list_devices.
    erewrite try_catch_ok; [reflexivity |].
    rewrite (bind_ok _ _ _ _ _ (require_authenticated_true _ Hauth)).
    now rewrite (bind_ok _ _ _ _ _ Hs'').
  - now apply get_auth_url_authenticated.
Qed.

Lemma start_restores_session_witness :
  let w := snd (snd (getTokenFromCode "valid-code" (configured_auth, sample_world))) in
  exists s',
    start (new_GoogleHomeMCP, w) = (Ok tt, s') /\
    outbound_calls (snd s') = outbound_calls w /\
    fst (callTool "list_devices" None s')
    = Ok (text_result "Device listing would be implemented here") /\
    callTool "get_auth_url" None s'
    = (Ok (text_result "Already authenticated with Google."), s').
Proof.
  intros w.
  apply (start_restores_session w sample_credentials sample_tokens None);
    reflexivity.
Defined.

(** ** [function.ts]: the HTTP function *)

Section HttpFunctionFacts.
Context {S B R : Type}.
Variable handle : B -> M S R.
Implicit Types (req : HttpRequest B) (st : S).

Lemma header_differs_false authHeader expected :
  header_differs authHeader expected = false <-> authHeader = Some expected.
Proof.
  unfold header_differs. destruct authHeader as [h |]; [| split; discriminate].
  destruct (String.eqb_spec h expected) as [-> | Hne]; simpl.
  - split; reflexivity.
  - split; [discriminate | intros [= E]; contradiction].
Qed.

(** X23: any other request whose [Authorization] header is not exactly
    [Bearer ] followed by the expected token (no header at all included)
    is answered [401] with [{ error: 'Unauthorized' }], on every path,
    [/health] included; the handler is not reached and the state is as
    before. *)
Theorem unauthorized_rejected AUTH_TOKEN req st :
  req_method req <> "OPTIONS" ->
  req_authorization req <> Some (bearer (expected_token AUTH_TOKEN)) ->
  googleHomeMCP handle AUTH_TOKEN req st
  = (Ok (mkHttpResponse 401 cors_headers (SendJson unauthorized_json)), st).
Proof.
  intros Hm Hauth. unfold googleHomeMCP.
  destruct (String.eqb_spec (req_method req) "OPTIONS") as [E | _]; [contradiction |].
  destruct (header_differs (req_authorization req)
              (bearer (expected_token AUTH_TOKEN))) eqn:Hd; [reflexivity |].
  apply header_differs_false in Hd. contradiction.
Qed.

(** X25: the function never throws, and every response, whatever its
    status, carries the three CORS headers, which allow any origin. *)
Theorem every_response_has_cors AUTH_TOKEN req st :
  exists resp st',
    googleHomeMCP handle AUTH_TOKEN req st = (Ok resp, st') /\
    res_headers resp = cors_headers /\
    In ("Access-Control-Allow-Origin", "*") (res_headers resp) /\
    In (res_status resp) [204; 401; 200; 500].
Proof.
  unfold googleHomeMCP.
  destruct (String.eqb (req_method req) "OPTIONS").
  { eexists _, _. split; [reflexivity |]. simpl. tauto. }
  destruct (header_differs _ _).
  { eexists _, _. split; [reflexivity |]. simpl. tauto. }
  destruct (String.eqb (req_path req) "/health").
  { eexists _, _. split; [reflexivity |]. simpl. tauto. }
  unfold try_catch, bind.
  destruct (handle (req_body req) st) as [[r | e] st'];
    eexists _, _; (split; [reflexivity |]); simpl; tauto.
Qed.

End HttpFunctionFacts.

Lemma unauthorized_rejected_witness :
  googleHomeMCP (S := unit) (R := string)
                (mcpFunction_handleRequest (P := string))
                (Some "s3cr3t")
                (mkHttpRequest "GET" "/health" (Some "Bearer guess") None) tt
  = (Ok (mkHttpResponse 401 cors_headers (SendJson unauthorized_json)), tt).
Proof.
  apply (unauthorized_rejected
           (S := unit) (R := string) (mcpFunction_handleRequest (P := string)));
    discriminate.
Defined.

Lemma handleRequest_throws {S P R : Type} (body : option (RpcRequest P)) (st : S) :
  mcpFunction_handleRequest (R := R) body st
  = (Throw (Error (handleRequest_error body)), st).
Proof.
  unfold mcpFunction_handleRequest, handleRequest, handleRequest_error.
  destruct body as [r |]; [| reflexivity].
  destruct (rpc_method r) as [m |]; [| reflexivity].
  destruct (String.eqb_spec m "tools/list") as [-> | Hl]; [reflexivity |].
  destruct (String.eqb_spec m "tools/call") as [-> | Hc]; [reflexivity |].
  rewrite !bool_decide_eq_false_2 by (intros [= E]; contradiction).
  reflexivity.
Qed.

(** X24: a request with the expected token, with the SDK as it is. On
    [/health] it gets the liveness payload with status [200] and the
    handler is not reached. On any other path the body goes to
    [handleRequest], which never returns: [tools/list] and [tools/call]
    call a method the SDK's [Server] does not have, every other body is
    refused. The answer is therefore always status [500] with
    [{ error: <message> }] and the state is as before; for [tools/list]
    and [tools/call] the message is [this.server.listTools is not a
    function] and [this.server.callTool is not a function]. *)
Theorem authorized_request_served
    {S P R : Type} (AUTH_TOKEN : option string)
    (req : HttpRequest (option (RpcRequest P))) (st : S) :
  req_method req <> "OPTIONS" ->
  authorized AUTH_TOKEN req ->
  (req_path req = "/health" ->
   googleHomeMCP (R := R) mcpFunction_handleRequest AUTH_TOKEN req st
   = (Ok (mkHttpResponse 200 cors_headers (SendJson health_json)), st)) /\
  (req_path req <> "/health" ->
   (exists msg,
      googleHomeMCP (R := R) mcpFunction_handleRequest AUTH_TOKEN req st
      = (Ok (mkHttpResponse 500 cors_headers (SendJson (error_json msg))), st)) /\
   (forall params,
      req_body req = Some (mkRpcRequest (Some "tools/list") params) ->
      googleHomeMCP (R := R) mcpFunction_handleRequest AUTH_TOKEN req st
      = (Ok (mkHttpResponse 500 cors_headers
               (SendJson (error_json "this.server.listTools is not a function"))),
         st)) /\
   (forall params,
      req_body req = Some (mkRpcRequest (Some "tools/call") params) ->
      googleHomeMCP (R := R) mcpFunction_handleRequest AUTH_TOKEN req st
      = (Ok (mkHttpResponse 500 cors_headers
               (SendJson (error_json "this.server.callTool is not a function"))),
         st))).
Proof.
  intros Hm Hauth. unfold authorized in Hauth.
  apply header_differs_false in Hauth.
  unfold googleHomeMCP.
  destruct (String.eqb_spec (req_method req) "OPTIONS") as [E | _]; [contradiction |].
  rewrite Hauth.
  split.
  - intros ->. reflexivity.
  - intros Hp.
    destruct (String.eqb_spec (req_path req) "/health") as [E | _]; [contradiction |].
    assert (H500 : try_catch
                     (bind (mcpFunction_handleRequest (R := R) (req_body req))
                           (fun result =>
                              ret (mkHttpResponse 200 cors_headers (SendResult result))))
                     (fun error =>
                        ret (mkHttpResponse 500 cors_headers
                               (SendJson (error_json (exn_message error))))) st
                   = (Ok (mkHttpResponse 500 cors_headers
                            (SendJson (error_json
                                         (handleRequest_error (req_body req))))), st)).
    { rewrite (try_catch_throw _ _ st (Error (handleRequest_error (req_body req))) st);
        [reflexivity |].
      apply bind_throw. apply handleRequest_throws. }
    rewrite H500.
    split; [eauto | split; intros params ->; reflexivity].
Qed.

Lemma authorized_request_served_witness :
  googleHomeMCP (S := unit) (R := string)
    (mcpFunction_handleRequest (P := string)) (Some "s3cr3t")
    (mkHttpRequest "GET" "/health" (Some "Bearer s3cr3t") None) tt
  = (Ok (mkHttpResponse 200 cors_headers (SendJson health_json)), tt) /\
  googleHomeMCP (S := unit) (R := string) mcpFunction_handleRequest (Some "s3cr3t")
    (mkHttpRequest "POST" "/" (Some "Bearer s3cr3t")
       (Some (mkRpcRequest (Some "tools/call") "lights on"))) tt
  = (Ok (mkHttpResponse 500 cors_headers
           (SendJson (error_json "this.server.callTool is not a function"))), tt).
Proof.
  split.
  - apply (proj1 (authorized_request_served (P := string) (Some "s3cr3t")
                    (mkHttpRequest "GET" "/health" (Some "Bearer s3cr3t") None) tt
                    ltac:(discriminate) eq_refl)).
    reflexivity.
  - apply (proj2 (proj2 (proj2 (authorized_request_served (Some "s3cr3t")
                                  (mkHttpRequest "POST" "/" (Some "Bearer s3cr3t")
                                     (Some (mkRpcRequest (Some "tools/call")
                                                          "lights on"))) tt
                                  ltac:(discriminate) eq_refl)
                           ltac:(discriminate)))
             "lights on").
    reflexivity.
Defined.

(** X26: [handleRequest] behind the HTTP function. An authorized request
    whose body has a [method] other than [tools/list] and [tools/call] is
    answered [500] with [{ error: 'Unknown method: <method>' }] ([undefined]
    spelled out when the body has no [method]); neither SDK call is made
    and the state is as before. *)
Theorem unknown_method_is_500
    {S P R : Type} (server_listTools : M S R) (server_callTool : P -> M S R)
    (AUTH_TOKEN : option string) (req : HttpRequest (option (RpcRequest P)))
    (r : RpcRequest P) (st : S) :
  req_method req <> "OPTIONS" ->
  authorized AUTH_TOKEN req ->
  req_path req <> "/health" ->
  req_body req = Some r ->
  rpc_method r <> Some "tools/list" ->
  rpc_method r <> Some "tools/call" ->
  googleHomeMCP (handleRequest server_listTools server_callTool) AUTH_TOKEN req st
  = (Ok (mkHttpResponse 500 cors_headers
           (SendJson (error_json ("Unknown method: " +:+
                                  template_string (rpc_method r))))), st).
Proof.
  intros Hm Hauth Hp Hb Hl Hc.
  unfold authorized in Hauth. apply header_differs_false in Hauth.
  unfold googleHomeMCP.
  destruct (String.eqb_spec (req_method req) "OPTIONS") as [E | _]; [contradiction |].
  rewrite Hauth.
  destruct (String.eqb_spec (req_path req) "/health") as [E | _]; [contradiction |].
  rewrite (try_catch_throw _ _ st
             (Error ("Unknown method: " +:+ template_string (rpc_method r))) st);
    [reflexivity |].
  apply bind_throw. rewrite Hb. unfold handleRequest.
  destruct (rpc_method r) as [m |]; [| reflexivity].
  destruct (String.eqb_spec m "tools/list") as [-> | _]; [contradiction |].
  destruct (String.eqb_spec m "tools/call") as [-> | _]; [contradiction |].
  reflexivity.
Qed.

Lemma unknown_method_is_500_witness :
  googleHomeMCP (S := unit) (R := string) mcpFunction_handleRequest
    (Some "s3cr3t")
    (mkHttpRequest "POST" "/" (Some "Bearer s3cr3t")
       (Some (mkRpcRequest (Some "initialize") "")))
    tt
  = (Ok (mkHttpResponse 500 cors_headers
           (SendJson (error_json "Unknown method: initialize"))), tt).
Proof.
  apply (unknown_method_is_500 (S := unit) (R := string)
           Server_listTools Server_callTool
           (Some "s3cr3t")
           (mkHttpRequest "POST" "/" (Some "Bearer s3cr3t")
              (Some (mkRpcRequest (Some "initialize") "")))
           (mkRpcRequest (Some "initialize") "") tt);
    first [reflexivity | discriminate].
Defined.

(** ** [server.ts]: the bearer-token gate *)

(** X27: the middleware of the server lets a request through exactly when
    its path is [/health] or its [Authorization] header is [Bearer ]
    followed by the expected token; every other request is answered
    [401] with [{ error: 'Unauthorized' }]. Unlike the HTTP function, the
    server answers [/health] without a token. *)
Theorem auth_middleware_passes
    (AUTH_TOKEN : option string) (path : string) (authHeader : option string) :
  (auth_middleware AUTH_TOKEN path authHeader = Next <->
   path = "/health" \/ authHeader = Some (bearer (expected_token AUTH_TOKEN))) /\
  (auth_middleware AUTH_TOKEN path authHeader <> Next ->
   auth_middleware AUTH_TOKEN path authHeader = Respond 401 unauthorized_json).
Proof.
  unfold auth_middleware.
  destruct (String.eqb_spec path "/health") as [-> | Hp].
  { split; [split; auto | intros H; contradiction]. }
  destruct authHeader as [h |]; simpl.
  - destruct (String.eqb_spec h (bearer (expected_token AUTH_TOKEN))) as [-> | Hne].
    + simpl. split; [split; auto | intros H; contradiction].
    + rewrite orb_true_r. split; [| reflexivity].
      split; [discriminate | intros [E | [= E]]; contradiction].
  - split; [| reflexivity].
    split; [discriminate | intros [E | E]; [contradiction | discriminate]].
Qed.

Lemma auth_middleware_passes_witness :
  auth_middleware (Some "s3cr3t") "/mcp" (Some "Bearer guess")
  = Respond 401 unauthorized_json /\
  auth_middleware (Some "s3cr3t") "/health" None = Next.
Proof.
  split.
  - apply (proj2 (auth_middleware_passes (Some "s3cr3t") "/mcp" (Some "Bearer guess"))).
    discriminate.
  - apply (proj1 (auth_middleware_passes (Some "s3cr3t") "/health" None)).
    left. reflexivity.
Defined.

Lemma auth_middleware_bearer AUTH_TOKEN path authHeader :
  authHeader = Some (bearer (expected_token AUTH_TOKEN)) ->
  auth_middleware AUTH_TOKEN path authHeader = Next.
Proof.
  intros ->. unfold auth_middleware.
  destruct (String.eqb path "/health"); [reflexivity |].
  simpl. now rewrite String.eqb_refl.
Qed.

(** X28: when [AUTH_TOKEN] is unset or empty, both gates fall back to the
    token written in the source: a request with the header
    [Bearer your-secret-token] passes the middleware of the server on
    every path and is served by the HTTP function. *)
Theorem default_token_accepted
    {S B R : Type} (handle : B -> M S R)
    (AUTH_TOKEN : option string) (req : HttpRequest B) (st : S) :
  truthy AUTH_TOKEN = false ->
  req_authorization req = Some "Bearer your-secret-token" ->
  auth_middleware AUTH_TOKEN (req_path req) (req_authorization req) = Next /\
  (req_method req <> "OPTIONS" ->
   req_path req = "/health" ->
   googleHomeMCP handle AUTH_TOKEN req st
   = (Ok (mkHttpResponse 200 cors_headers (SendJson health_json)), st)).
Proof.
  intros Htok Hh.
  assert (E : expected_token AUTH_TOKEN = "your-secret-token").
  { unfold expected_token, or_default. now rewrite Htok. }
  assert (Hauth : authorized AUTH_TOKEN req).
  { unfold authorized. rewrite E. exact Hh. }
  split.
  - now apply auth_middleware_bearer.
  - intros Hm Hp.
    unfold authorized in Hauth. apply header_differs_false in Hauth.
    unfold googleHomeMCP.
    destruct (String.eqb_spec (req_method req) "OPTIONS") as [E' | _];
      [contradiction |].
    rewrite Hauth, Hp. reflexivity.
Qed.

Lemma default_token_accepted_witness :
  let handle := mcpFunction_handleRequest (S := unit) (P := string) (R := string) in
  let req := mkHttpRequest "GET" "/health" (Some "Bearer your-secret-token") None in
  auth_middleware (Some "") (req_path req) (req_authorization req) = Next /\
  googleHomeMCP handle None req tt
  = (Ok (mkHttpResponse 200 cors_headers (SendJson health_json)), tt).
Proof.
  intros handle req. split.
  - apply (proj1 (default_token_accepted handle (Some "") req tt eq_refl eq_refl)).
  - apply (proj2 (default_token_accepted handle None req tt eq_refl eq_refl));
      [discriminate | reflexivity].
Defined.

(** ** [server.ts]: the WebSocket handler *)

(** X29: the [message] handler of a WebSocket connection does not speak
    the protocol: to a message that is a JSON object it sends exactly one
    reply, with the [id] of the message, [jsonrpc] [2.0] and the fixed
    result [MCP server connected]; nothing else in the message ([method],
    [params], any other key) has any effect on the reply. A text that is
    no JSON and the value [null] get no reply. *)
Theorem websocket_only_acknowledges
    (fields : gmap string JValue) (k : string) (v : JValue) :
  (exists reply,
     ws_on_message (Some (JObj fields)) = [JObj reply] /\
     reply !! "id" = fields !! "id" /\
     reply !! "jsonrpc" = Some (JStr "2.0") /\
     reply !! "result" = Some (JObj {[ "message" := JStr "MCP server connected" ]})) /\
  (k <> "id" ->
   ws_on_message (Some (JObj (<[k := v]> fields)))
   = ws_on_message (Some (JObj fields))) /\
  ws_on_message None = [] /\
  ws_on_message (Some JNull) = [].
Proof.
  split; [| split; [| split; reflexivity]].
  - unfold ws_on_message, message_id, connected_reply.
    destruct (fields !! "id") as [id |] eqn:Hid.
    + eexists. split; [reflexivity |].
      split; [apply lookup_insert_eq |].
      split; (rewrite lookup_insert_ne by discriminate; reflexivity).
    + eexists. split; [reflexivity |].
      repeat split; reflexivity.
  - intros Hk. unfold ws_on_message, message_id.
    now rewrite lookup_insert_ne.
Qed.

Lemma websocket_only_acknowledges_witness :
  ws_on_message
    (Some (JObj (<["method" := JStr "tools/call"]> {[ "id" := JNum 7 ]})))
  = ws_on_message (Some (JObj {[ "id" := JNum 7 ]})).
Proof.
  apply (proj1 (proj2 (websocket_only_acknowledges {[ "id" := JNum 7 ]}
                         "method" (JStr "tools/call")))).
  discriminate.
Defined.
